(** * JiraDuoCodeAgent: the progress-reconciliation subsystem

    A shallow embedding of [ProgressTracker] (src/jira_gitlab_agent.py) and
    [StatusMonitor] (src/status_monitor.py), and the properties of the
    checklist codec, the signal rules and the monitoring cycle.

    Python [str] values are modelled as lists of characters.  Characters are
    the code points below 256, on which [str.lower] acts character by
    character. *)

From Stdlib Require Import Ascii String DecimalString.
From Stdlib Require Import List Bool Arith ZArith Lia.
From Stdlib Require DecimalPos DecimalZ.
Import ListNotations.

(** ** Python string primitives *)

Module PyStr.

Definition str := list ascii.

Definition lit (s : string) : str := list_ascii_of_string s.

(** [s.startswith(sub)] *)
Fixpoint startswith (s sub : str) {struct sub} : bool :=
  match sub with
  | [] => true
  | a :: sub' =>
      match s with
      | [] => false
      | c :: s' => Ascii.eqb a c && startswith s' sub'
      end
  end.

(** The scan behind [str.find]: [s] is the text from index [i] on. *)
Fixpoint find_in (sub s : str) (i : nat) : option nat :=
  match s with
  | [] => if startswith [] sub then Some i else None
  | _ :: s' => if startswith s sub then Some i else find_in sub s' (S i)
  end.

(** [s.find(sub)]; Python's [-1] is [None]. *)
Definition find (sub s : str) : option nat := find_in sub s 0.

(** [s.find(sub, start)] *)
Definition find_start (sub s : str) (start : nat) : option nat :=
  find_in sub (skipn start s) start.

(** [sub in s] *)
Definition contains (sub s : str) : bool :=
  match find sub s with
  | Some _ => true
  | None => false
  end.

(** [s.endswith(sub)] *)
Definition endswith (s sub : str) : bool := startswith (rev s) (rev sub).

(** [str.lower] on one character: A-Z and the Latin-1 capitals. *)
Definition lower_char (c : ascii) : ascii :=
  let n := nat_of_ascii c in
  if ((65 <=? n) && (n <=? 90)) || ((192 <=? n) && (n <=? 222) && negb (n =? 215))
  then ascii_of_nat (n + 32)
  else c.

Definition lower (s : str) : str := map lower_char s.

(** [s.split(sep)] for a one-character separator *)
Fixpoint split (sep : ascii) (s : str) : list str :=
  match s with
  | [] => [[]]
  | c :: s' =>
      if Ascii.eqb c sep then [] :: split sep s'
      else
        match split sep s' with
        | l :: ls => (c :: l) :: ls
        | [] => [[c]]
        end
  end.

(** Slices [s[a:b]], [s[:a]] and [s[a:]] for [0 <= a <= b]. *)
Definition slice (s : str) (a b : nat) : str := firstn (b - a) (skipn a s).
Definition slice_to (s : str) (a : nat) : str := firstn a s.
Definition slice_from (s : str) (a : nat) : str := skipn a s.

Definition newline : ascii := ascii_of_nat 10.

End PyStr.

Import PyStr.

(** ** The checklist codec: [ProgressTracker] *)

(** The dict with the six fixed keys built by [_parse_progress_section] and
    [update_progress]. *)
Record progress : Type := Progress {
  setup : bool;
  implementation : bool;
  tests : bool;
  documentation : bool;
  review : bool;
  acceptance : bool
}.

Definition progress_default : progress :=
  Progress false false false false false false.

Definition progress_eqb (p q : progress) : bool :=
  Bool.eqb (setup p) (setup q) && Bool.eqb (implementation p) (implementation q)
  && Bool.eqb (tests p) (tests q) && Bool.eqb (documentation p) (documentation q)
  && Bool.eqb (review p) (review q) && Bool.eqb (acceptance p) (acceptance q).

Definition set_setup (p : progress) : progress :=
  Progress true (implementation p) (tests p) (documentation p) (review p) (acceptance p).
Definition set_implementation (p : progress) : progress :=
  Progress (setup p) true (tests p) (documentation p) (review p) (acceptance p).
Definition set_tests (p : progress) : progress :=
  Progress (setup p) (implementation p) true (documentation p) (review p) (acceptance p).
Definition set_documentation (p : progress) : progress :=
  Progress (setup p) (implementation p) (tests p) true (review p) (acceptance p).
Definition set_review (p : progress) : progress :=
  Progress (setup p) (implementation p) (tests p) (documentation p) true (acceptance p).
Definition set_acceptance (p : progress) : progress :=
  Progress (setup p) (implementation p) (tests p) (documentation p) (review p) true.

Definition HEADER : str := lit "## Progress Tracking".
Definition HASHES : str := lit "##".

(** The body of the [for line in progress_section.split('\n')] loop. *)
Definition parse_line (p : progress) (line : str) : progress :=
  let l := lower line in
  if contains (lit "- [x]") l then
    if contains (lit "setup") l then set_setup p
    else if contains (lit "implementation") l then set_implementation p
    else if contains (lit "test") l then set_tests p
    else if contains (lit "documentation") l then set_documentation p
    else if contains (lit "review") l then set_review p
    else if contains (lit "acceptance") l then set_acceptance p
    else p
  else p.

(** [description[start:end]], or [description[start:]] when no [##] follows. *)
Definition progress_section (description : str) (start : nat) : str :=
  match find_start HASHES description (start + 1) with
  | None => slice_from description start
  | Some e => slice description start e
  end.

Definition _parse_progress_section (description : str) : progress :=
  match find HEADER description with
  | None => progress_default
  | Some start =>
      fold_left parse_line (split newline (progress_section description start))
        progress_default
  end.

Definition box (b : bool) : str := if b then lit "x" else lit " ".

Definition checkbox_line (b : bool) (label : string) : str :=
  lit "- [" ++ box b ++ lit "] " ++ lit label ++ [newline].

(** The text assembled in [progress_section] by [_update_progress_section]. *)
Definition render (p : progress) : str :=
  HEADER ++ [newline]
  ++ checkbox_line (setup p) "Initial setup complete"
  ++ checkbox_line (implementation p) "Core functionality implemented"
  ++ checkbox_line (tests p) "Tests added and passing"
  ++ checkbox_line (documentation p) "Documentation complete"
  ++ checkbox_line (review p) "Code reviewed"
  ++ checkbox_line (acceptance p) "Acceptance criteria met" ++ [newline].

Definition _update_progress_section (description : str) (p : progress) : str :=
  match find HEADER description with
  | None => description
  | Some start =>
      let before_progress := slice_to description start in
      let after_progress :=
        match find_start HASHES description (start + 1) with
        | None => []
        | Some e => slice_from description e
        end in
      before_progress ++ render p ++ after_progress
  end.

(** ** The signal collectors: [ProgressTracker.check_*] *)

Fixpoint str_eqb (a b : str) : bool :=
  match a, b with
  | [], [] => true
  | x :: a', y :: b' => Ascii.eqb x y && str_eqb a' b'
  | _, _ => false
  end.

(** [s.lstrip(c)], [s.strip(c)] for a one-character set *)
Fixpoint lstrip (c : ascii) (s : str) : str :=
  match s with
  | [] => []
  | x :: s' => if Ascii.eqb x c then lstrip c s' else s
  end.

Definition strip (c : ascii) (s : str) : str := rev (lstrip c (rev (lstrip c s))).

(** [s.endswith((t1, t2, ...))] *)
Definition endswith_any (s : str) (subs : list str) : bool :=
  existsb (endswith s) subs.

(** What [self.mr.pipeline] offers to [check_test_progress]. *)
Inductive pipeline_attr : Type :=
| PipelineAbsent                  (* no attribute, [None] or an empty dict *)
| PipelineStatus (status : str)   (* a dict with a ['status'] entry *)
| PipelineWithoutStatus.          (* a non-empty dict without ['status'] *)

(** The answers of the code host during one cycle.  [None] stands for a call
    that raises; every list holds the ['path'] (or ['new_path']) of the
    items returned. *)
Record snapshot : Type := Snapshot {
  tree_all : option (list str);       (* repository_tree(ref, recursive) *)
  tree_tests : option (list str);     (* repository_tree(ref, path='tests', recursive) *)
  changes : option (list str);        (* mr.changes()['changes'] *)
  pipeline : pipeline_attr;
  approved_by : option nat;           (* len(approvals.approved_by) *)
  discussions : option (list (option bool))  (* the resolved flag, when exposed *)
}.

Definition required_patterns : list str :=
  [lit "src/"; lit "tests/"; lit "__init__.py"; lit "requirements.txt"; lit "README.md"].

Definition slash : ascii := ascii_of_nat 47.

Definition check_structure_progress (s : snapshot) : bool :=
  match tree_all s with
  | None => false
  | Some files =>
      forallb (fun pattern => existsb (fun f => endswith f (strip slash pattern)) files)
        required_patterns
  end.

Definition check_implementation_progress (s : snapshot) : bool :=
  match changes s with
  | None => false
  | Some new_paths =>
      let implementation_files :=
        filter (fun f => endswith_any f [lit ".py"; lit ".js"; lit ".ts"; lit ".java"])
          new_paths in
      0 <? length implementation_files
  end.

Definition check_test_progress (s : snapshot) : bool :=
  match tree_tests s with
  | None => false
  | Some paths =>
      let test_files := filter (fun p => startswith p (lit "test_")) paths in
      match pipeline s with
      | PipelineStatus st => (0 <? length test_files) && str_eqb st (lit "success")
      | PipelineWithoutStatus => false
      | PipelineAbsent => 0 <? length test_files
      end
  end.

Definition check_documentation_progress (s : snapshot) : bool :=
  match tree_all s with
  | None => false
  | Some files =>
      let doc_files :=
        filter (fun f => endswith_any f [lit ".md"; lit ".rst"; lit ".txt"]) files in
      match changes s with
      | None => false
      | Some new_paths =>
          let python_files := filter (fun f => endswith f (lit ".py")) new_paths in
          (0 <? length doc_files) && (0 <? length python_files)
      end
  end.

Definition check_review_progress (s : snapshot) : bool :=
  match approved_by s with
  | None => false
  | Some n =>
      match discussions s with
      | None => false
      | Some ds =>
          let has_approvals := 0 <? n in
          let all_discussions_resolved :=
            forallb (fun d => match d with Some r => r | None => true end) ds in
          has_approvals && all_discussions_resolved
      end
  end.

(** ** One reconciliation cycle: [ProgressTracker.update_progress] *)

(** The [new_progress] dict of [update_progress]. *)
Definition collect (description : str) (s : snapshot) : progress :=
  {| setup := check_structure_progress s;
     implementation := check_implementation_progress s;
     tests := check_test_progress s;
     documentation := check_documentation_progress s;
     review := check_review_progress s;
     acceptance := acceptance (_parse_progress_section description) |}.

(** What a cycle leaves behind: the dict returned ([None] is the empty dict
    of the [except] branch), the descriptions handed to [mr.save()], in
    order, and the description held by the code host afterwards. *)
Record cycle_result : Type := CycleResult {
  returned : option progress;
  saves : list str;
  stored : str
}.

(** [save_ok] tells whether [mr.save()], when called, returns or raises. *)
Definition update_progress (description : str) (s : snapshot) (save_ok : bool)
  : cycle_result :=
  let current_progress := _parse_progress_section description in
  let new_progress := collect description s in
  if negb (progress_eqb new_progress current_progress) then
    let updated_description := _update_progress_section description new_progress in
    if save_ok
    then CycleResult (Some new_progress) [updated_description] updated_description
    else CycleResult None [updated_description] description
  else CycleResult (Some new_progress) [] description.

(** ** The tracked set and the monitoring cycle: [StatusMonitor] *)

Definition str_of_Z (z : Z) : str := lit (NilZero.string_of_int (Z.to_int z)).

(** [f"{project_id}:{mr_iid}"] *)
Definition mr_key (project_id mr_iid : Z) : str :=
  str_of_Z project_id ++ lit ":" ++ str_of_Z mr_iid.

(** An entry of [active_mrs]; times are in seconds. *)
Record mr_info : Type := MrInfo {
  project_id : Z;
  mr_iid : Z;
  issue_key : str;
  last_update : Z
}.

(** [active_mrs]: a dict in insertion order. *)
Definition active_mrs := list (str * mr_info).

Fixpoint dict_get (key : str) (d : active_mrs) : option mr_info :=
  match d with
  | [] => None
  | (k, v) :: d' => if str_eqb key k then Some v else dict_get key d'
  end.

Definition dict_mem (key : str) (d : active_mrs) : bool :=
  match dict_get key d with
  | Some _ => true
  | None => false
  end.

Fixpoint dict_del (key : str) (d : active_mrs) : active_mrs :=
  match d with
  | [] => []
  | (k, v) :: d' => if str_eqb key k then d' else (k, v) :: dict_del key d'
  end.

(** [now] is the value of [time.time()] at the call. *)
Definition add_merge_request (d : active_mrs) (project_id mr_iid : Z)
  (issue_key : str) (now : Z) : active_mrs :=
  let key := mr_key project_id mr_iid in
  if negb (dict_mem key d)
  then d ++ [(key, MrInfo project_id mr_iid issue_key now)]
  else d.

Definition remove_merge_request (d : active_mrs) (project_id mr_iid : Z) : active_mrs :=
  let key := mr_key project_id mr_iid in
  if dict_mem key d then dict_del key d else d.

(** What the collaborators answer during the cycle of one entry:
    the dict returned by [agent.update_merge_request_progress] ([None] is
    the empty dict) and [mr.state] ([None] when fetching the merge request
    raises). *)
Record cycle_env : Type := CycleEnv {
  agent_progress : option progress;
  mr_state : option str
}.

Definition update_merge_request_status (env : cycle_env) (d : active_mrs)
  (project_id mr_iid : Z) : option progress * active_mrs :=
  match mr_state env with
  | None => (None, d)
  | Some st =>
      let d' :=
        if existsb (str_eqb st) [lit "merged"; lit "closed"]
        then remove_merge_request d project_id mr_iid
        else d in
      (agent_progress env, d')
  end.

(** [progress.get(key, False)] on the dict of a cycle *)
Definition progress_get (p : option progress) (key : string) : bool :=
  match p with
  | None => false
  | Some q =>
      if String.eqb key "setup" then setup q
      else if String.eqb key "implementation" then implementation q
      else if String.eqb key "tests" then tests q
      else if String.eqb key "documentation" then documentation q
      else if String.eqb key "review" then review q
      else if String.eqb key "acceptance" then acceptance q
      else false
  end.

(** The status chosen by [StatusMonitor.update_jira_status]. *)
Definition new_status (p : option progress) : str :=
  if progress_get p "acceptance" then lit "done"
  else if progress_get p "review" then lit "in_review"
  else if existsb (progress_get p) ["implementation"; "tests"; "documentation"]%string
       then lit "in_progress"
  else lit "to_do".

(** A call [agent.update_jira_status(issue_key, status)]. *)
Definition push : Type := (str * str)%type.

Definition update_jira_status (issue_key : str) (p : option progress) : list push :=
  [(issue_key, new_status p)].

(** [mr_info['last_update'] = current_time]: the dict assigned to is the
    object the store holds under [key], when the entry is still there. *)
Fixpoint touch (key : str) (current_time : Z) (d : active_mrs) : active_mrs :=
  match d with
  | [] => []
  | (k, v) :: d' =>
      if str_eqb key k
      then (k, MrInfo (project_id v) (mr_iid v) (issue_key v) current_time) :: d'
      else (k, v) :: touch key current_time d'
  end.

(** The body of the [for] loop of [monitor_loop] for one item of
    [list(self.active_mrs.items())]: the store afterwards and the pushes made. *)
Definition monitor_entry (env : cycle_env) (current_time update_interval : Z)
  (d : active_mrs) (item : str * mr_info) : active_mrs * list push :=
  let (key, info) := item in
  if (update_interval <=? current_time - last_update info)%Z then
    let (progress, d1) :=
      update_merge_request_status env d (project_id info) (mr_iid info) in
    let pushes :=
      match progress with
      | Some _ => update_jira_status (issue_key info) progress
      | None => []
      end in
    (touch key current_time d1, pushes)
  else (d, []).

(** One pass of the [while] loop over the items present when it starts;
    [envs] gives the collaborators' answers for each key. *)
Fixpoint monitor_items (envs : str -> cycle_env) (current_time update_interval : Z)
  (items : list (str * mr_info)) (d : active_mrs) : active_mrs * list push :=
  match items with
  | [] => (d, [])
  | item :: rest =>
      let (d1, ps) := monitor_entry (envs (fst item)) current_time update_interval d item in
      let (d2, qs) := monitor_items envs current_time update_interval rest d1 in
      (d2, ps ++ qs)
  end.

Definition monitor_pass (envs : str -> cycle_env) (current_time update_interval : Z)
  (d : active_mrs) : active_mrs * list push :=
  monitor_items envs current_time update_interval d d.

(** [monitor_loop], one tick per turn of the [while] loop: the reading of
    [time.time()] and the collaborators' answers at that turn.  The loop
    itself never returns; the ticks given bound the turns followed. *)
Fixpoint monitor_loop (ticks : list (Z * (str -> cycle_env))) (update_interval : Z)
  (d : active_mrs) : active_mrs * list push :=
  match ticks with
  | [] => (d, [])
  | (current_time, envs) :: rest =>
      let (d1, ps) := monitor_pass envs current_time update_interval d in
      let (d2, qs) := monitor_loop rest update_interval d1 in
      (d2, ps ++ qs)
  end.

(** ** The checklist codec in the spec's words *)

Inductive item : Type :=
| ISetup | IImplementation | ITests | IDocumentation | IReview | IAcceptance.

(** The ordered keyword table. *)
Definition KEYWORDS : list (item * str) :=
  [(ISetup, lit "setup"); (IImplementation, lit "implementation");
   (ITests, lit "test"); (IDocumentation, lit "documentation");
   (IReview, lit "review"); (IAcceptance, lit "acceptance")].

Definition get_item (it : item) (p : progress) : bool :=
  match it with
  | ISetup => setup p
  | IImplementation => implementation p
  | ITests => tests p
  | IDocumentation => documentation p
  | IReview => review p
  | IAcceptance => acceptance p
  end.

Definition set_item (it : item) (p : progress) : progress :=
  match it with
  | ISetup => set_setup p
  | IImplementation => set_implementation p
  | ITests => set_tests p
  | IDocumentation => set_documentation p
  | IReview => set_review p
  | IAcceptance => set_acceptance p
  end.

(** The first entry of the table whose keyword occurs in the lowered line. *)
Definition first_match (l : str) : option (item * str) :=
  List.find (fun entry => contains (snd entry) l) KEYWORDS.

Definition is_checked (line : str) : bool := contains (lit "- [x]") (lower line).

(** The last component of a path: the name of the file. *)
Definition file_name (path : str) : str := last (split slash path) [].

(** The tests rule as the spec words it, over the paths listed under the
    tests root. *)
Definition tests_signal_spec (paths : list str) (pl : pipeline_attr) : bool :=
  existsb (fun p => startswith (file_name p) (lit "test_")) paths
  && match pl with
     | PipelineStatus st => str_eqb st (lit "success")
     | _ => true
     end.

(** ** The rendered section *)

Definition no_hash (s : str) : bool :=
  forallb (fun c => negb (Ascii.eqb "#"%char c)) s.

(** The six checkbox lines and the blank line that follow the header in the
    rendered section. *)
Definition render_body (p : progress) : str :=
  [newline]
  ++ checkbox_line (setup p) "Initial setup complete"
  ++ checkbox_line (implementation p) "Core functionality implemented"
  ++ checkbox_line (tests p) "Tests added and passing"
  ++ checkbox_line (documentation p) "Documentation complete"
  ++ checkbox_line (review p) "Code reviewed"
  ++ checkbox_line (acceptance p) "Acceptance criteria met" ++ [newline].

(** The state read back from a rendered section: every item but
    [implementation], whose label holds no keyword of the table. *)
Definition readable (p : progress) : progress :=
  Progress (setup p) false (tests p) (documentation p) (review p) (acceptance p).

(** A document that holds a rendered section: the first header starts the
    section, and the section runs to the end or to a following [##]. *)
Definition canonical_document (text before : str) (p : progress) (after : str) : Prop :=
  text = before ++ render p ++ after
  /\ find HEADER text = Some (length before)
  /\ (after = [] \/ startswith after HASHES = true).

(** ** Sample documents and states *)

Definition implemented_only : progress := Progress false true false false false false.

Definition all_done : progress := Progress true true true true true true.

Definition plain_document : str := lit "Implements PROJ-7 # no checklist here".

Definition sample_document : str :=
  lit "Intro" ++ [newline] ++ HEADER ++ [newline]
  ++ lit "- [x] Initial setup complete" ++ [newline]
  ++ lit "### Details" ++ [newline] ++ lit "## Notes" ++ [newline].

(** ** The status policy in the spec's words *)

(** The ordered rules: a test on the checklist and the status it gives. *)
Definition STATUS_POLICY : list ((progress -> bool) * str) :=
  [(acceptance, lit "done");
   (review, lit "in_review");
   (fun p => implementation p || tests p || documentation p, lit "in_progress")].

Definition derived_status (p : progress) : str :=
  match List.find (fun rule => fst rule p) STATUS_POLICY with
  | Some rule => snd rule
  | None => lit "to_do"
  end.

(** ** The invariant of the tracked set *)

(** Keys are unique, and each is the key of its entry. *)
Definition wf_store (d : active_mrs) : Prop :=
  NoDup (map fst d)
  /\ Forall (fun kv => fst kv = mr_key (project_id (snd kv)) (mr_iid (snd kv))) d.

(** ** Sample snapshots and stores *)

(** A code host on which every call raises. *)
Definition silent_snapshot : snapshot :=
  Snapshot None None None PipelineAbsent None None.

(** The listing of the tests directory of a branch that holds
    [tests/test_agent.py]. *)
Definition tests_snapshot : snapshot :=
  Snapshot None (Some [lit "tests/__init__.py"; lit "tests/test_agent.py"]) None PipelineAbsent
    None None.

Definition accepted_document : str :=
  render (Progress true false false false false true).

Definition one_entry_store : active_mrs :=
  add_merge_request [] 42 7 (lit "PROJ-7") 0.

Definition merged_env : cycle_env :=
  CycleEnv (Some progress_default) (Some (lit "merged")).

(** ** More on the checklist section *)

(** [after_progress] of [_update_progress_section]. *)
Definition section_after (description : str) (start : nat) : str :=
  match find_start HASHES description (start + 1) with
  | None => []
  | Some e => slice_from description e
  end.

(** ** The description of a new merge request: [generate_mr_description] *)

(** [sep.join(parts)] *)
Fixpoint join (sep : str) (parts : list str) : str :=
  match parts with
  | [] => []
  | [x] => x
  | x :: rest => x ++ sep ++ join sep rest
  end.

(** The [story_details] dict built by [get_jira_story].  [story_points] is
    [None] when the field is missing or falsy, else its text. *)
Record story_details : Type := StoryDetails {
  story_key : str;
  story_summary : str;
  story_description : str;
  story_status : str;
  story_acceptance_criteria : str;
  story_points : option str;
  story_priority : str;
  story_components : list str;
  story_labels : list str
}.

(** The five prompts the template reads from the [prompts] dict. *)
Record prompt_texts : Type := PromptTexts {
  p_structure : str;
  p_implementation : str;
  p_tests : str;
  p_documentation : str;
  p_review : str
}.

(** The f-string of [generate_mr_description], in three parts: up to the
    checklist, the checklist, and from the next heading on. *)
Definition description_before (story : story_details) (prompts : prompt_texts) : str :=
  let (p_structure, p_implementation, p_tests, p_documentation, p_review) := prompts in
  lit "# Implementation: "
  ++ (story_summary story)
  ++ lit "

## Story Details
- **Jira Issue**: ["
  ++ (story_key story)
  ++ lit "]
- **Summary**: "
  ++ (story_summary story)
  ++ lit "
- **Priority**: "
  ++ (story_priority story)
  ++ lit "
- **Story Points**: "
  ++ (match story_points story with Some points => points | None => lit "Not specified" end)
  ++ lit "
- **Components**: "
  ++ (join (lit ", ") (story_components story))
  ++ lit "
- **Labels**: "
  ++ (join (lit ", ") (story_labels story))
  ++ lit "

## Requirements
"
  ++ (story_description story)
  ++ lit "

## Acceptance Criteria
"
  ++ (story_acceptance_criteria story)
  ++ lit "

## GitLab Duo Instructions

### 1. Generate Initial Structure
```
"
  ++ p_structure
  ++ lit "
```

### 2. Implement Core Functionality
```
"
  ++ p_implementation
  ++ lit "
```

### 3. Add Tests
```
"
  ++ p_tests
  ++ lit "
```

### 4. Add Documentation
```
"
  ++ p_documentation
  ++ lit "
```

### 5. Code Review
```
"
  ++ p_review
  ++ lit "
```

## Implementation Steps

1. **Initial Setup**
   ```bash
   # Copy and paste the structure prompt above
   # Review and adjust the generated structure
   ```

2. **Core Implementation**
   ```bash
   # Copy and paste the implementation prompt above
   # Review and iterate on the implementation
   ```

3. **Testing**
   ```bash
   # Copy and paste the tests prompt above
   # Enhance test coverage as needed
   ```

4. **Documentation**
   ```bash
   # Copy and paste the documentation prompt above
   # Review and enhance documentation
   ```

".

Definition description_checklist : str :=
  lit "## Progress Tracking
- [ ] Initial setup complete
- [ ] Core functionality implemented
- [ ] Tests added and passing
- [ ] Documentation complete
- [ ] Code reviewed
- [ ] Acceptance criteria met

".

Definition description_after (story : story_details) (jira_url generated_at : str) : str :=
  lit "## Notes for Reviewers
1. Verify all acceptance criteria are met
2. Check test coverage
3. Review error handling
4. Validate against requirements
5. Check code quality and best practices

## Related Links
- Jira Story: ["
  ++ (story_key story)
  ++ lit "]("
  ++ jira_url
  ++ lit "/browse/"
  ++ (story_key story)
  ++ lit ")
- Generated: "
  ++ generated_at
  ++ lit "
".

(** [prompts] is the dict filled by the loop over the configured prompt
    types; a type the template reads and the dict lacks is a [KeyError], and
    the function raises ([None]).  [generated_at] is the formatted time. *)
Definition generate_mr_description (story : story_details)
  (prompts : string -> option str) (jira_url generated_at : str) : option str :=
  match prompts "structure"%string, prompts "implementation"%string,
        prompts "tests"%string, prompts "documentation"%string,
        prompts "review"%string with
  | Some s, Some i, Some t, Some d, Some r =>
      Some (description_before story (PromptTexts s i t d r)
            ++ description_checklist
            ++ description_after story jira_url generated_at)
  | _, _, _, _, _ => None
  end.

(** The [prompts] dict gives the five texts of [p]. *)
Definition prompts_give (prompts : string -> option str) (p : prompt_texts) : Prop :=
  prompts "structure"%string = Some (p_structure p)
  /\ prompts "implementation"%string = Some (p_implementation p)
  /\ prompts "tests"%string = Some (p_tests p)
  /\ prompts "documentation"%string = Some (p_documentation p)
  /\ prompts "review"%string = Some (p_review p).

(** The dict that holds the five texts of [p] and nothing else. *)
Definition prompts_of (p : prompt_texts) (prompt_type : string) : option str :=
  if String.eqb prompt_type "structure" then Some (p_structure p)
  else if String.eqb prompt_type "implementation" then Some (p_implementation p)
  else if String.eqb prompt_type "tests" then Some (p_tests p)
  else if String.eqb prompt_type "documentation" then Some (p_documentation p)
  else if String.eqb prompt_type "review" then Some (p_review p)
  else None.

Definition sample_story : story_details :=
  StoryDetails (lit "PROJ-7") (lit "Export reports") (lit "As a user I export reports.")
    (lit "To Do") (lit "- a CSV file is produced") None (lit "High")
    [lit "backend"; lit "reports"] [lit "export"].

Definition sample_prompts : prompt_texts :=
  PromptTexts (lit "Create the layout.") (lit "Write the code.") (lit "Write the tests.")
    (lit "Write the docs.") (lit "Review the change.").

(** ** Growing snapshots *)

(** The answer [b] lists at least what [a] lists; a call that raised may
    have come to answer. *)
Definition list_grows (a b : option (list str)) : Prop :=
  match a, b with
  | None, _ => True
  | Some x, Some y => incl x y
  | Some _, None => False
  end.

Definition snapshot_grows (s s' : snapshot) : Prop :=
  list_grows (tree_all s) (tree_all s')
  /\ list_grows (tree_tests s) (tree_tests s')
  /\ list_grows (changes s) (changes s')
  /\ pipeline s = pipeline s'.

(** A branch with the layout asked for, a changed Python file and an
    approval. *)
Definition ready_snapshot : snapshot :=
  Snapshot
    (Some [lit "src"; lit "src/__init__.py"; lit "src/agent.py"; lit "tests";
           lit "requirements.txt"; lit "README.md"])
    (Some [lit "tests/test_agent.py"])
    (Some [lit "src/agent.py"])
    PipelineAbsent
    (Some 1)
    (Some [Some true; None]).

Definition bare_snapshot : snapshot :=
  Snapshot (Some [lit "README.md"]) None (Some [lit "src/agent.py"]) PipelineAbsent
    (Some 0) (Some []).

(** ** Sample stores and answers *)

Definition two_entry_store : active_mrs :=
  add_merge_request one_entry_store 42 8 (lit "PROJ-8") 100.

Definition open_env : cycle_env :=
  CycleEnv (Some implemented_only) (Some (lit "opened")).

(** ** Due entries *)

(** The test of [monitor_loop] on one entry at [current_time]. *)
Definition is_due (current_time update_interval : Z) (info : mr_info) : bool :=
  (update_interval <=? current_time - last_update info)%Z.

(** The pushes the cycle of one item makes: none when the entry is not due,
    when the merge request cannot be fetched or when the checklist returned
    is empty. *)
Definition entry_pushes (envs : str -> cycle_env) (current_time update_interval : Z)
  (item : str * mr_info) : list push :=
  if is_due current_time update_interval (snd item) then
    match mr_state (envs (fst item)), agent_progress (envs (fst item)) with
    | Some _, Some p => [(issue_key (snd item), new_status (Some p))]
    | _, _ => []
    end
  else [].

(** A description with notes around a checklist in which the boxes of
    setup and review are checked. *)
Definition reviewed_state : progress := Progress true false false false true false.

Definition reviewed_document : str :=
  lit "Intro" ++ [newline] ++ render reviewed_state ++ lit "## Notes".

(** ** The characters of a key *)

(** The characters a number is written with. *)
Definition key_char (c : ascii) : bool :=
  Ascii.eqb c "-" || existsb (Ascii.eqb c) (lit "0123456789").

(** ** The configuration: [JiraGitlabAgent.load_config] and its readers *)

(** What [yaml.safe_load] gives and the agent keeps in [self.config]. *)
#[warnings="-register-all"] Inductive value : Type :=
| VNone
| VBool (b : bool)
| VNum (z : Z)
| VStr (s : str)
| VList (items : list value)
| VDict (entries : list (str * value)).

(** Truth of a value in [if] and [not]. *)
Definition truthy (v : value) : bool :=
  match v with
  | VNone => false
  | VBool b => b
  | VNum z => negb (z =? 0)%Z
  | VStr s => negb (str_eqb s [])
  | VList items => match items with [] => false | _ :: _ => true end
  | VDict entries => match entries with [] => false | _ :: _ => true end
  end.

(** Lookup in the entries of a dict. *)
Fixpoint entries_get (key : str) (entries : list (str * value)) : option value :=
  match entries with
  | [] => None
  | (k, v) :: rest => if str_eqb key k then Some v else entries_get key rest
  end.

(** [v[key]]: [None] is the exception raised, a missing key or a value that
    is no dict. *)
Definition vsub (v : value) (key : str) : option value :=
  match v with
  | VDict entries => entries_get key entries
  | _ => None
  end.

(** [v.get(key, default)]: [None] is the exception raised by a value that is
    no dict. *)
Definition vget (v : value) (key : str) (default : value) : option value :=
  match v with
  | VDict entries =>
      match entries_get key entries with
      | Some x => Some x
      | None => Some default
      end
  | _ => None
  end.

(** [key in v] for a string [key]: [None] is the [TypeError] of a value that
    is no container. *)
Definition vin (key : str) (v : value) : option bool :=
  match v with
  | VDict entries =>
      Some (match entries_get key entries with Some _ => true | None => false end)
  | VList items =>
      Some (existsb (fun x => match x with VStr s => str_eqb s key | _ => false end) items)
  | VStr s => Some (contains key s)
  | _ => None
  end.

(** The configuration returned when the file cannot be used. *)
Definition default_config : value :=
  VDict
    [(lit "features",
      VDict [(lit "llm_refinement", VDict [(lit "enabled", VBool false)]);
             (lit "gitlab_duo",
              VDict [(lit "enabled", VBool true); (lit "default_branch", VStr (lit "main"))]);
             (lit "jira_integration", VDict [(lit "update_status", VBool false)])]);
     (lit "prompts", VDict [(lit "base", VDict [])]);
     (lit "logging",
      VDict [(lit "level", VStr (lit "INFO")); (lit "prompt_refinement", VBool true)])].

Definition required_sections : list str :=
  [lit "features"; lit "prompts"; lit "logging"].

(** [[s for s in required_sections if s not in config]]: [None] when the
    membership test raises. *)
Definition missing_sections (config : value) : option (list str) :=
  fold_right
    (fun s rest =>
       match vin s config, rest with
       | Some present, Some l => Some (if negb present then s :: l else l)
       | _, _ => None
       end)
    (Some []) required_sections.

(** [loaded] is what opening and parsing the file gives, [None] when that
    raises. *)
Definition load_config (loaded : option value) : value :=
  match loaded with
  | None => default_config
  | Some config =>
      match missing_sections config with
      | Some [] => config
      | _ => default_config
      end
  end.

(** [is_llm_enabled]: the value returned, [None] when a [.get] raises. *)
Definition is_llm_enabled (config : value) : option value :=
  match vget config (lit "features") (VDict []) with
  | None => None
  | Some features =>
      match vget features (lit "llm_refinement") (VDict []) with
      | None => None
      | Some llm => vget llm (lit "enabled") (VBool false)
      end
  end.

(** [get_base_prompt] *)
Definition get_base_prompt (config : value) (prompt_type : str) : option value :=
  match vget config (lit "prompts") (VDict []) with
  | None => None
  | Some prompts =>
      match vget prompts (lit "base") (VDict []) with
      | None => None
      | Some base => vget base prompt_type (VStr [])
      end
  end.

Definition allowed_keys : list str := [lit "model"; lit "temperature"; lit "max_tokens"].

(** [refine_prompt_with_llm].  [api_key] tells whether [openai.api_key] is
    set; [refined] is what formatting the refinement prompt and asking the
    model gives, [None] when any of it raises.  The result is [None] when
    the function raises.  In the handler [llm_config] is the dict filtered
    by [allowed_keys], or unbound when the key check raised, and reading an
    unbound name raises. *)
Definition refine_prompt_with_llm (config : value) (api_key : bool)
  (refined : option value) (prompt_type : str) : option value :=
  match get_base_prompt config prompt_type with
  | None => None
  | Some base_prompt =>
      match is_llm_enabled config with
      | None => None
      | Some enabled =>
          if negb (truthy enabled) then Some base_prompt
          else if negb api_key then None
          else
            match vsub config (lit "features") with
            | None => None
            | Some features =>
                match vsub features (lit "llm_refinement") with
                | None => None
                | Some (VDict entries) =>
                    let llm_config :=
                      filter (fun kv => existsb (str_eqb (fst kv)) allowed_keys) entries in
                    match refined with
                    | Some refined_prompt => Some refined_prompt
                    | None =>
                        match entries_get (lit "fallback_to_base") llm_config with
                        | Some flag => if truthy flag then Some base_prompt else None
                        | None => Some base_prompt
                        end
                    end
                | Some _ => None
                end
            end
      end
  end.

(** ** Moving a Jira issue: [JiraGitlabAgent.update_jira_status] *)

(** What Jira answers: whether [jira.issue] returns, and the transitions of
    the issue, each with its id and the name of its target status ([None]
    when the call raises). *)
Record jira_answers : Type := JiraAnswers {
  issue_found : bool;
  transitions : option (list (str * str))
}.

(** The loop over the transitions: the id handed to [transition_issue]. *)
Fixpoint first_transition (ts : list (str * str)) (new_status : str) : list str :=
  match ts with
  | [] => []
  | (id, name) :: rest =>
      if str_eqb (lower name) (lower new_status) then [id]
      else first_transition rest new_status
  end.

(** The [try] block: the ids [transition_issue] is called with.  Whatever
    raises inside is caught, and nothing more is called. *)
Definition transition_calls (integration : value) (jira : jira_answers)
  (status : str) : list str :=
  match vsub integration (lit "status_mapping") with
  | None => []
  | Some status_mapping =>
      match vget status_mapping (lower status) VNone with
      | None => []
      | Some mapped =>
          if negb (truthy mapped) then []
          else if negb (issue_found jira) then []
          else
            match transitions jira with
            | None => []
            | Some ts =>
                match mapped with
                | VStr target => first_transition ts target
                | _ => []
                end
            end
      end
  end.

(** The ids [transition_issue] is called with; [None] when the function
    raises, which only the first line can do. *)
Definition agent_update_jira_status (config : value) (jira : jira_answers)
  (status : str) : option (list str) :=
  match vsub config (lit "features") with
  | None => None
  | Some features =>
      match vsub features (lit "jira_integration") with
      | None => None
      | Some integration =>
          match vget integration (lit "update_status") (VBool false) with
          | None => None
          | Some flag =>
              if negb (truthy flag) then Some []
              else Some (transition_calls integration jira status)
          end
      end
  end.

(** ** Sample configurations *)

Definition refining_config : value :=
  VDict
    [(lit "features",
      VDict [(lit "llm_refinement",
              VDict [(lit "enabled", VBool true); (lit "fallback_to_base", VBool false);
                     (lit "model", VStr (lit "gpt-4"))]);
             (lit "jira_integration",
              VDict [(lit "update_status", VBool true);
                     (lit "status_mapping",
                      VDict [(lit "in_review", VStr (lit "In Review"));
                             (lit "done", VStr (lit "Done"))])])]);
     (lit "prompts", VDict [(lit "base", VDict [(lit "tests", VStr (lit "Write tests."))])]);
     (lit "logging", VDict [(lit "level", VStr (lit "INFO"))])].


(** ** Creating the merge request: [JiraGitlabAgent.create_duo_merge_request] *)

Record merge_request : Type := MergeRequest {
  iid : Z;
  web_url : str
}.

(** What the collaborators answer during one call.  [None] stands for a call
    that raises. *)
Record mr_answers : Type := MrAnswers {
  project_found : bool;                          (* projects.get *)
  existing_mrs : option (list merge_request);    (* the open merge requests of the branch *)
  generated : option str;                        (* generate_mr_description *)
  created : option merge_request;                (* mergerequests.create *)
  tracked : option (option progress);            (* ProgressTracker(...), then update_progress() *)
  jira_state : jira_answers
}.

(** The dict handed to [mergerequests.create]. *)
Record create_request : Type := CreateRequest {
  cr_source_branch : str;
  cr_target_branch : value;
  cr_title : str;
  cr_description : str;
  cr_labels : list value
}.

(** The dict returned. *)
Record mr_details : Type := MrDetails {
  merge_request_id : Z;
  merge_request_url : str;
  mr_status : str;
  mr_progress : option progress
}.

(** What a call leaves behind: the dict returned ([None] when the call
    raises), the configuration afterwards, the merge requests asked for and
    the transitions asked of Jira. *)
Record mr_outcome : Type := MrOutcome {
  details : option mr_details;
  config_after : value;
  creations : list create_request;
  jira_calls : list str
}.

Fixpoint entries_set (key : str) (v : value) (entries : list (str * value))
  : list (str * value) :=
  match entries with
  | [] => [(key, v)]
  | (k, x) :: rest =>
      if str_eqb key k then (k, v) :: rest else (k, x) :: entries_set key v rest
  end.

(** [config['features']['gitlab_duo']] *)
Definition gitlab_duo (config : value) : option value :=
  match vsub config (lit "features") with
  | None => None
  | Some features => vsub features (lit "gitlab_duo")
  end.

(** The configuration in which the list held under
    [config['features']['gitlab_duo']['labels']] has become [items]: the
    list is the very object [labels.append] works on. *)
Definition with_labels (config : value) (items : list value) : value :=
  match config with
  | VDict centries =>
      match entries_get (lit "features") centries with
      | Some (VDict fentries) =>
          match entries_get (lit "gitlab_duo") fentries with
          | Some (VDict gentries) =>
              VDict
                (entries_set (lit "features")
                   (VDict
                      (entries_set (lit "gitlab_duo")
                         (VDict (entries_set (lit "labels") (VList items) gentries))
                         fentries))
                   centries)
          | _ => config
          end
      | _ => config
      end
  | _ => config
  end.

(** The part of the [try] block after the merge request is at hand. *)
Definition after_merge_request (config : value) (gitlab : mr_answers)
  (story : story_details) (mr : merge_request) (status : str)
  (requests : list create_request) : mr_outcome :=
  match tracked gitlab with
  | None => MrOutcome None config requests []
  | Some initial_progress =>
      match agent_update_jira_status config (jira_state gitlab) (lit "in_review") with
      | None => MrOutcome None config requests []
      | Some calls =>
          MrOutcome (Some (MrDetails (iid mr) (web_url mr) status initial_progress))
            config requests calls
      end
  end.

Definition create_duo_merge_request (config : value) (gitlab : mr_answers)
  (story : story_details) (source_branch : str) (target_branch : option str)
  : mr_outcome :=
  let target :=
    match target_branch with
    | Some t => Some (VStr t)
    | None =>
        match gitlab_duo config with
        | None => None
        | Some duo => vget duo (lit "default_branch") (VStr (lit "main"))
        end
    end in
  match target with
  | None => MrOutcome None config [] []
  | Some target_branch =>
      if negb (project_found gitlab) then MrOutcome None config [] []
      else
        match existing_mrs gitlab with
        | None => MrOutcome None config [] []
        | Some (mr :: _) =>
            after_merge_request config gitlab story mr (lit "existing") []
        | Some [] =>
            match gitlab_duo config with
            | None => MrOutcome None config [] []
            | Some duo =>
                match vget duo (lit "labels") (VList []) with
                | Some (VList items) =>
                    let labels := items ++ [VStr (story_key story)] in
                    let config' :=
                      match vsub duo (lit "labels") with
                      | Some _ => with_labels config labels
                      | None => config
                      end in
                    match generated gitlab with
                    | None => MrOutcome None config' [] []
                    | Some description =>
                        let request :=
                          CreateRequest source_branch target_branch
                            (lit "Implement " ++ story_key story ++ lit ": "
                             ++ story_summary story)
                            description labels in
                        match created gitlab with
                        | None => MrOutcome None config' [request] []
                        | Some mr =>
                            after_merge_request config' gitlab story mr (lit "created")
                              [request]
                        end
                    end
                | _ => MrOutcome None config [] []
                end
            end
        end
  end.

(** The calls of one run on one agent, each on the configuration the
    calls before it left. *)
Fixpoint create_all (config : value)
  (calls : list (mr_answers * story_details * str * option str))
  : value * list create_request :=
  match calls with
  | [] => (config, [])
  | (gitlab, story, source_branch, target_branch) :: rest =>
      let out := create_duo_merge_request config gitlab story source_branch target_branch in
      let (config', requests) := create_all (config_after out) rest in
      (config', creations out ++ requests)
  end.

(** The labels the configuration holds. *)
Definition config_labels (config : value) : option value :=
  match gitlab_duo config with
  | None => None
  | Some duo => vsub duo (lit "labels")
  end.

(** The call reaches [labels.append]: the project is found and the branch
    has no open merge request. *)
Definition reaches_append (call : mr_answers * story_details * str * option str) : bool :=
  let '(gitlab, _, _, _) := call in
  project_found gitlab
  && match existing_mrs gitlab with Some [] => true | _ => false end.

Definition call_key (call : mr_answers * story_details * str * option str) : value :=
  let '(_, story, _, _) := call in VStr (story_key story).

Definition labelled_config : value :=
  VDict
    [(lit "features",
      VDict [(lit "gitlab_duo",
              VDict [(lit "default_branch", VStr (lit "main"));
                     (lit "labels", VList [VStr (lit "duo")])]);
             (lit "jira_integration", VDict [(lit "update_status", VBool false)])]);
     (lit "prompts", VDict []);
     (lit "logging", VDict [])].

(** A project without open merge requests in which creating raises. *)
Definition failing_gitlab : mr_answers :=
  MrAnswers true (Some []) (Some (lit "text")) None None (JiraAnswers false None).

(** A project without open merge requests in which creating succeeds. *)
Definition working_gitlab : mr_answers :=
  MrAnswers true (Some []) (Some (lit "text"))
    (Some (MergeRequest 5 (lit "https://gitlab.example.org/mr/5")))
    (Some (Some progress_default)) (JiraAnswers false None).

Definition other_story : story_details :=
  StoryDetails (lit "PROJ-8") (lit "Import reports") [] (lit "To Do") [] None (lit "Low")
    [] [].

(** ** From the description to the status pushed *)

(** [JiraGitlabAgent.update_merge_request_progress]: [tracker_ok] tells
    whether building the [ProgressTracker] (fetching project and merge
    request) returns; when it raises the empty dict is returned. *)
Definition update_merge_request_progress (tracker_ok : bool) (description : str)
  (s : snapshot) (save_ok : bool) : option progress :=
  if tracker_ok then returned (update_progress description s save_ok) else None.

(** ** The batch file: [main] of run.py *)

(** [c.isspace()] for a character below 256 *)
Definition is_space (c : ascii) : bool :=
  let n := nat_of_ascii c in
  ((9 <=? n) && (n <=? 13)) || ((28 <=? n) && (n <=? 32)) || (n =? 133) || (n =? 160).

Fixpoint lstrip_space (s : str) : str :=
  match s with
  | [] => []
  | c :: s' => if is_space c then lstrip_space s' else s
  end.

(** [s.strip()] *)
Definition strip_space (s : str) : str := rev (lstrip_space (rev (lstrip_space s))).

(** [[line.strip() for line in f if line.strip()]] *)
Definition batch_issue_keys (lines : list str) : list str :=
  map strip_space (filter (fun line => negb (str_eqb (strip_space line) [])) lines).

(** Two entries tell of the same merge request and issue. *)
Definition same_subject (a b : mr_info) : Prop :=
  project_id a = project_id b /\ mr_iid a = mr_iid b /\ issue_key a = issue_key b.

(** * Properties *)

(** ** Facts on the string primitives *)

Module PyStrFacts.

Lemma startswith_app (sub rest : str) : startswith (sub ++ rest) sub = true.
Proof.
  induction sub as [|a sub IH]; simpl; [reflexivity|].
  now rewrite Ascii.eqb_refl, IH.
Qed.

Lemma startswith_inv (sub s : str) :
  startswith s sub = true -> s = sub ++ skipn (length sub) s.
Proof.
  revert s; induction sub as [|a sub IH]; intros s H; simpl in *; [reflexivity|].
  destruct s as [|c s]; [discriminate|].
  apply andb_true_iff in H as [Hc Hs].
  apply Ascii.eqb_eq in Hc; subst c.
  simpl. f_equal. now apply IH.
Qed.

Lemma startswith_nil (sub : str) : startswith [] sub = true -> sub = [].
Proof. destruct sub; [reflexivity | discriminate]. Qed.

(** [find_in] returns the first position at which [sub] starts. *)
Lemma find_in_Some (sub s : str) (i k : nat) :
  find_in sub s i = Some k ->
  exists n, k = i + n /\ n <= length s
            /\ startswith (skipn n s) sub = true
            /\ forall j, j < n -> startswith (skipn j s) sub = false.
Proof.
  revert i; induction s as [|c s IH]; intros i H; simpl in H.
  - destruct (startswith [] sub) eqn:E; [|discriminate].
    injection H as <-. exists 0. repeat split; simpl; auto; lia.
  - destruct (startswith (c :: s) sub) eqn:E.
    + injection H as <-. exists 0. repeat split; simpl; auto; lia.
    + destruct (IH _ H) as (n & -> & Hn & Hs & Hj).
      exists (S n). repeat split; simpl; auto; try lia.
      intros [|j] Hlt; simpl; [exact E | apply Hj; lia].
Qed.

Lemma find_in_None (sub s : str) (i : nat) :
  find_in sub s i = None ->
  forall j, j <= length s -> startswith (skipn j s) sub = false.
Proof.
  revert i; induction s as [|c s IH]; intros i H j Hj; simpl in H.
  - destruct (startswith [] sub) eqn:E; [discriminate|].
    now destruct j.
  - destruct (startswith (c :: s) sub) eqn:E; [discriminate|].
    destruct j as [|j]; simpl; [exact E|].
    apply (IH _ H). simpl in Hj. lia.
Qed.

Lemma find_in_here (sub s : str) (i : nat) :
  startswith s sub = true -> find_in sub s i = Some i.
Proof.
  intros H. destruct s; simpl; now rewrite H.
Qed.

(** A prefix in which [sub] starts nowhere is skipped by the scan. *)
Lemma find_in_skip (sub pre s : str) (i : nat) :
  (forall j, j < length pre -> startswith (skipn j (pre ++ s)) sub = false) ->
  find_in sub (pre ++ s) i = find_in sub s (i + length pre).
Proof.
  revert i; induction pre as [|c pre IH]; intros i H; simpl.
  - now rewrite Nat.add_0_r.
  - pose proof (H 0 ltac:(simpl; lia)) as H0. simpl in H0. rewrite H0.
    rewrite IH; [f_equal; lia|].
    intros j Hj. apply (H (S j)). simpl. lia.
Qed.

Lemma find_Some_split (sub s : str) (k : nat) :
  find sub s = Some k ->
  s = firstn k s ++ sub ++ skipn (length sub) (skipn k s)
  /\ k <= length s
  /\ forall j, j < k -> startswith (skipn j s) sub = false.
Proof.
  unfold find. intros H.
  destruct (find_in_Some _ _ _ _ H) as (n & -> & Hn & Hs & Hj). simpl.
  repeat split; auto.
  rewrite <- (startswith_inv _ _ Hs). symmetry. apply firstn_skipn.
Qed.

Lemma find_None_no_occurrence (sub s : str) :
  find sub s = None -> forall pre post, s <> pre ++ sub ++ post.
Proof.
  intros H pre post ->.
  assert (Hl : length pre <= length (pre ++ sub ++ post)) by (rewrite length_app; lia).
  pose proof (find_in_None _ _ _ H _ Hl) as F.
  rewrite skipn_app, Nat.sub_diag, skipn_all in F. simpl in F.
  now rewrite startswith_app in F.
Qed.

Lemma str_eqb_eq (a b : str) : str_eqb a b = true <-> a = b.
Proof.
  revert b; induction a as [|x a IH]; intros [|y b]; simpl; split; intros H;
    try reflexivity; try discriminate.
  - apply andb_true_iff in H as [Hx Ha].
    apply Ascii.eqb_eq in Hx. apply IH in Ha. now subst.
  - injection H as -> ->. rewrite Ascii.eqb_refl. now apply IH.
Qed.

Lemma str_eqb_refl (a : str) : str_eqb a a = true.
Proof. now apply str_eqb_eq. Qed.

Lemma str_eqb_neq (a b : str) : str_eqb a b = false <-> a <> b.
Proof.
  split.
  - intros H E. apply str_eqb_eq in E. congruence.
  - intros H. destruct (str_eqb a b) eqn:E; [|reflexivity].
    apply str_eqb_eq in E. contradiction.
Qed.

End PyStrFacts.

Import PyStrFacts.

(** ** The checklist section *)

(** Text without [#] holds no [##], also across its end. *)
Lemma find_in_skip_no_hash (pre s : str) (i : nat) :
  no_hash pre = true ->
  find_in HASHES (pre ++ s) i = find_in HASHES s (i + length pre).
Proof.
  revert i; induction pre as [|c pre IH]; intros i H; simpl.
  - now rewrite Nat.add_0_r.
  - simpl in H. apply andb_true_iff in H as [Hc Hp].
    apply negb_true_iff in Hc. rewrite Hc. simpl.
    rewrite (IH _ Hp). f_equal. lia.
Qed.

(** After the header's first character the scan for [##] starts past the
    header: the header holds [##] at its start only. *)
Lemma find_hashes_after_header (before rest : str) :
  find_start HASHES (before ++ HEADER ++ rest) (length before + 1)
  = find_in HASHES rest (length before + length HEADER).
Proof.
  unfold find_start.
  replace (length before + 1) with (1 + length before) by lia.
  rewrite <- skipn_skipn, skipn_app, Nat.sub_diag, skipn_all. simpl skipn.
  simpl find_in. f_equal. simpl length. lia.
Qed.

Lemma render_header_body (p : progress) : render p = HEADER ++ render_body p.
Proof. reflexivity. Qed.

Lemma render_body_no_hash (p : progress) : no_hash (render_body p) = true.
Proof. destruct p as [[] [] [] [] [] []]; reflexivity. Qed.

Lemma parse_rendered_lines (p : progress) :
  fold_left parse_line (split newline (render p)) progress_default = readable p.
Proof. destruct p as [[] [] [] [] [] []]; vm_compute; reflexivity. Qed.

Lemma skipn_length_app (l1 l2 : str) : skipn (length l1) (l1 ++ l2) = l2.
Proof. induction l1; simpl; auto. Qed.

Lemma firstn_length_app (l1 l2 : str) : firstn (length l1) (l1 ++ l2) = l1.
Proof. induction l1; simpl; [reflexivity | now f_equal]. Qed.

Lemma canonical_section_end (before after : str) (p : progress) :
  after = [] \/ startswith after HASHES = true ->
  find_start HASHES (before ++ render p ++ after) (length before + 1)
  = match after with
    | [] => None
    | _ :: _ => Some (length before + length (render p))
    end.
Proof.
  intros Hafter.
  rewrite render_header_body, <- app_assoc, find_hashes_after_header.
  rewrite find_in_skip_no_hash by apply render_body_no_hash.
  rewrite length_app.
  destruct Hafter as [-> | H].
  - reflexivity.
  - rewrite (find_in_here _ _ _ H). destruct after; [discriminate|].
    f_equal. lia.
Qed.

Lemma canonical_parse (text before after : str) (p : progress) :
  canonical_document text before p after ->
  _parse_progress_section text = readable p.
Proof.
  intros (-> & Hfind & Hafter).
  unfold _parse_progress_section, progress_section. rewrite Hfind.
  rewrite (canonical_section_end before after p Hafter).
  rewrite <- parse_rendered_lines. do 2 f_equal.
  destruct after as [|c after].
  - unfold slice_from. rewrite skipn_length_app. apply app_nil_r.
  - unfold slice. rewrite skipn_length_app.
    replace (length before + length (render p) - length before)
      with (length (render p)) by lia.
    apply firstn_length_app.
Qed.

Lemma canonical_update (text before after : str) (p q : progress) :
  canonical_document text before p after ->
  _update_progress_section text q = before ++ render q ++ after.
Proof.
  intros (-> & Hfind & Hafter).
  unfold _update_progress_section. rewrite Hfind.
  rewrite (canonical_section_end before after p Hafter).
  unfold slice_to, slice_from.
  rewrite firstn_length_app.
  destruct after as [|c after]; [reflexivity|].
  do 2 f_equal.
  rewrite <- length_app, app_assoc. apply skipn_length_app.
Qed.

(** The section written for a checklist with every box checked. *)
Example render_all_done :
  render all_done
  = lit "## Progress Tracking
- [x] Initial setup complete
- [x] Core functionality implemented
- [x] Tests added and passing
- [x] Documentation complete
- [x] Code reviewed
- [x] Acceptance criteria met

".
Proof. reflexivity. Qed.

(** What is read back from it: every item but [implementation]. *)
Example parse_all_done :
  _parse_progress_section (render all_done)
  = Progress true false true true true true.
Proof. reflexivity. Qed.

(** A canonical document is read and rewritten as its parts say. *)
Theorem roundtrip_canonical (text before after : str) (p : progress) :
  canonical_document text before p after ->
  _update_progress_section text (_parse_progress_section text)
  = before ++ render (readable p) ++ after.
Proof.
  intros H. rewrite (canonical_parse _ _ _ _ H). apply (canonical_update _ _ _ _ _ H).
Qed.

(** X27. Rendering the extracted state is the identity on every canonical
    document whose [implementation] box is unchecked. *)
Corollary roundtrip_identity_unimplemented (text before after : str) (p : progress) :
  canonical_document text before p after ->
  implementation p = false ->
  _update_progress_section text (_parse_progress_section text) = text.
Proof.
  intros H Hi. rewrite (roundtrip_canonical _ _ _ _ H).
  destruct H as (-> & _). destruct p; simpl in Hi; subst. reflexivity.
Qed.

(** C1. Idempotence, [_update_progress_section(text, _parse_progress_section(text))
    = text] on documents with a valid checklist section, fails on the
    rendered section whose [implementation] box is checked: the label
    "Core functionality implemented" written by the renderer holds no keyword
    of the parser, the box is read back unchecked and written back unchecked. *)
Theorem roundtrip_unchecks_implementation :
  let text := render implemented_only in
  canonical_document text [] implemented_only []
  /\ _parse_progress_section text = progress_default
  /\ _update_progress_section text (_parse_progress_section text)
     = render progress_default
  /\ _update_progress_section text (_parse_progress_section text) <> text.
Proof.
  repeat split; try reflexivity.
  - now left.
  - apply str_eqb_neq. vm_compute. reflexivity.
Qed.

(** C5 (as amended). The section runs from the first header to the next
    occurrence of the two characters [##], or to the end of the document;
    [_update_progress_section] keeps the text before the header and the text
    from that [##] on, and puts the rendered section between them. *)
Theorem update_replaces_section (doc : str) (p : progress) (start : nat) :
  find HEADER doc = Some start ->
  exists body after,
    doc = firstn start doc ++ (HEADER ++ body) ++ after
    /\ progress_section doc start = HEADER ++ body
    /\ _update_progress_section doc p = firstn start doc ++ render p ++ after
    /\ (after = [] \/ startswith after HASHES = true)
    /\ (forall j, j < length body ->
                  startswith (skipn j (body ++ after)) HASHES = false)
    /\ (forall j, j < start -> startswith (skipn j doc) HEADER = false).
Proof.
  intros Hfind.
  destruct (find_Some_split _ _ _ Hfind) as (Hdoc & Hlen & Hfirst).
  set (before := firstn start doc) in *.
  set (rest := skipn (length HEADER) (skipn start doc)) in *.
  assert (Hb : length before = start) by (apply firstn_length_le; exact Hlen).
  assert (Hscan : find_start HASHES doc (start + 1)
                  = find_in HASHES rest (start + length HEADER)).
  { rewrite Hdoc at 1. rewrite <- Hb. apply find_hashes_after_header. }
  assert (Hskip : skipn start doc = HEADER ++ rest).
  { rewrite Hdoc at 1. rewrite <- Hb. apply skipn_length_app. }
  unfold _update_progress_section, progress_section.
  rewrite Hfind, Hscan. fold before.
  destruct (find_in HASHES rest (start + length HEADER)) as [e|] eqn:E.
  - destruct (find_in_Some _ _ _ _ E) as (n & -> & Hn & Hs & Hj).
    exists (firstn n rest), (skipn n rest).
    assert (Hafter : slice_from doc (start + length HEADER + n) = skipn n rest).
    { unfold slice_from.
      replace (start + length HEADER + n) with (n + (length HEADER + start)) by lia.
      now rewrite <- !skipn_skipn. }
    repeat split.
    + rewrite <- app_assoc, firstn_skipn. exact Hdoc.
    + unfold slice. rewrite Hskip.
      replace (start + length HEADER + n - start) with (length HEADER + n) by lia.
      now rewrite firstn_app_2.
    + now rewrite Hafter.
    + now right.
    + intros j Hlt. rewrite firstn_skipn. apply Hj.
      rewrite length_firstn in Hlt. lia.
    + exact Hfirst.
  - exists rest, [].
    repeat split.
    + rewrite app_nil_r. exact Hdoc.
    + exact Hskip.
    + now left.
    + intros j Hlt. rewrite app_nil_r.
      apply (find_in_None _ _ _ E). lia.
    + exact Hfirst.
Qed.

Lemma update_replaces_section_witness :
  find HEADER sample_document = Some 6
  /\ exists body after,
       sample_document = firstn 6 sample_document ++ (HEADER ++ body) ++ after
       /\ progress_section sample_document 6 = HEADER ++ body
       /\ _update_progress_section sample_document progress_default
          = firstn 6 sample_document ++ render progress_default ++ after
       /\ (after = [] \/ startswith after HASHES = true)
       /\ (forall j, j < length body ->
                     startswith (skipn j (body ++ after)) HASHES = false)
       /\ (forall j, j < 6 -> startswith (skipn j sample_document) HEADER = false).
Proof.
  split; [reflexivity|].
  apply (update_replaces_section sample_document progress_default 6).
  reflexivity.
Defined.

(** C5 (as stated) fails: a header of higher level, [# Appendix], does not
    end the section, and the text from it on is dropped by the rewrite. *)
Lemma update_drops_text_after_higher_header :
  let section := render progress_default in
  let after := lit "# Appendix" ++ [newline] ++ lit "kept by hand" ++ [newline] in
  find HEADER (section ++ after) = Some 0
  /\ startswith after (lit "# ") = true
  /\ contains (lit "#") (render_body progress_default) = false
  /\ _update_progress_section (section ++ after) progress_default = section
  /\ _update_progress_section (section ++ after) progress_default <> section ++ after.
Proof.
  repeat split; try reflexivity.
  apply str_eqb_neq. vm_compute. reflexivity.
Qed.

(** C8. On a document that does not contain the header,
    [_update_progress_section] returns the document itself, whatever the new
    state, and [_parse_progress_section] returns the all-false state. *)
Theorem no_section_noop (doc : str) (p : progress) :
  (forall pre post, doc <> pre ++ HEADER ++ post) ->
  _update_progress_section doc p = doc
  /\ _parse_progress_section doc = progress_default.
Proof.
  intros Hno.
  unfold _update_progress_section, _parse_progress_section.
  destruct (find HEADER doc) as [k|] eqn:E; [|split; reflexivity].
  exfalso. destruct (find_Some_split _ _ _ E) as (Hdoc & _).
  exact (Hno _ _ Hdoc).
Qed.

Lemma no_section_noop_witness :
  (forall pre post, plain_document <> pre ++ HEADER ++ post)
  /\ _update_progress_section plain_document all_done = plain_document
  /\ _parse_progress_section plain_document = progress_default.
Proof.
  assert (H : forall pre post, plain_document <> pre ++ HEADER ++ post)
    by (apply find_None_no_occurrence; reflexivity).
  split; [exact H|].
  apply (no_section_noop plain_document all_done H).
Defined.

(** ** Keyword priority *)

Lemma set_item_other (it it' : item) (p : progress) :
  it' <> it -> get_item it' (set_item it p) = get_item it' p.
Proof. destruct it, it'; intros H; try reflexivity; contradiction. Qed.

Lemma parse_line_first_match (p : progress) (line : str) :
  parse_line p line
  = if is_checked line
    then match first_match (lower line) with
         | Some entry => set_item (fst entry) p
         | None => p
         end
    else p.
Proof.
  unfold parse_line, is_checked, first_match, KEYWORDS.
  cbn [List.find snd fst].
  repeat match goal with
         | |- context [contains ?k (lower line)] =>
             destruct (contains k (lower line)); cbn [set_item fst]
         end; reflexivity.
Qed.

(** C7 (as amended). A checked line is given to the first entry of the
    keyword table whose keyword occurs in the lowered line and changes no
    other item; a checked line that holds "test" and "documentation" never
    sets [documentation], and sets [tests] and nothing else when it holds
    neither "setup" nor "implementation". *)
Theorem checked_line_first_match (p : progress) (line : str) :
  parse_line p line
  = (if is_checked line
     then match first_match (lower line) with
          | Some entry => set_item (fst entry) p
          | None => p
          end
     else p)
  /\ (exists it, forall it', it' <> it ->
                             get_item it' (parse_line p line) = get_item it' p)
  /\ (is_checked line = true ->
      contains (lit "test") (lower line) = true ->
      contains (lit "documentation") (lower line) = true ->
      documentation (parse_line p line) = documentation p
      /\ (contains (lit "setup") (lower line) = false ->
          contains (lit "implementation") (lower line) = false ->
          parse_line p line = set_tests p)).
Proof.
  split; [apply parse_line_first_match|]. split.
  - rewrite parse_line_first_match.
    destruct (is_checked line); [|exists ISetup; reflexivity].
    destruct (first_match (lower line)) as [[it kw]|]; [|exists ISetup; reflexivity].
    exists it. intros it' H. now apply set_item_other.
  - unfold is_checked, parse_line. intros -> Ht Hd. rewrite Ht.
    split.
    + destruct (contains (lit "setup") (lower line)); [reflexivity|].
      destruct (contains (lit "implementation") (lower line)); reflexivity.
    + now intros -> ->.
Qed.

Lemma checked_line_first_match_witness :
  let line := lit "- [X] Unit tests and documentation" in
  is_checked line = true
  /\ contains (lit "test") (lower line) = true
  /\ contains (lit "documentation") (lower line) = true
  /\ contains (lit "setup") (lower line) = false
  /\ contains (lit "implementation") (lower line) = false
  /\ parse_line progress_default line = set_tests progress_default.
Proof.
  intros line.
  destruct (checked_line_first_match progress_default line) as (_ & _ & H).
  destruct (H eq_refl eq_refl eq_refl) as (_ & Htests).
  do 5 (split; [reflexivity|]).
  exact (Htests eq_refl eq_refl).
Defined.

(** C7 (as stated) fails: a checked line with "test" and "documentation"
    that also holds "setup" sets [setup] and leaves [tests] alone. *)
Lemma checked_line_with_setup_skips_tests :
  let line := lit "- [x] Setup of tests and documentation" in
  is_checked line = true
  /\ contains (lit "test") (lower line) = true
  /\ contains (lit "documentation") (lower line) = true
  /\ parse_line progress_default line = set_setup progress_default
  /\ tests (parse_line progress_default line) = false
  /\ parse_line progress_default line <> set_tests progress_default.
Proof.
  repeat split; try reflexivity. vm_compute. discriminate.
Qed.

(** ** The reconciliation cycle *)

Lemma progress_eqb_eq (p q : progress) : progress_eqb p q = true <-> p = q.
Proof.
  split.
  - destruct p as [[] [] [] [] [] []], q as [[] [] [] [] [] []];
      intros H; try reflexivity; discriminate H.
  - intros ->. destruct q as [[] [] [] [] [] []]; reflexivity.
Qed.

Lemma update_progress_unchanged (description : str) (s : snapshot) (ok : bool) :
  collect description s = _parse_progress_section description ->
  update_progress description s ok
  = CycleResult (Some (collect description s)) [] description.
Proof.
  intros H. unfold update_progress.
  rewrite H. rewrite (proj2 (progress_eqb_eq _ _) eq_refl). reflexivity.
Qed.

Lemma update_progress_changed (description : str) (s : snapshot) (ok : bool) :
  collect description s <> _parse_progress_section description ->
  update_progress description s ok
  = let updated := _update_progress_section description (collect description s) in
    if ok then CycleResult (Some (collect description s)) [updated] updated
    else CycleResult None [updated] description.
Proof.
  intros H. unfold update_progress.
  destruct (progress_eqb (collect description s) (_parse_progress_section description))
    eqn:E; [|reflexivity].
  apply progress_eqb_eq in E. contradiction.
Qed.

Lemma collect_dec (description : str) (s : snapshot) :
  {collect description s = _parse_progress_section description}
  + {collect description s <> _parse_progress_section description}.
Proof.
  destruct (progress_eqb (collect description s) (_parse_progress_section description))
    eqn:E.
  - left. now apply progress_eqb_eq.
  - right. intros H. apply progress_eqb_eq in H. congruence.
Qed.

(** C4. A cycle calls [mr.save()] at most once, and a cycle whose collected
    state equals the stored one calls it not at all and leaves the document
    as it was. *)
Theorem at_most_one_write (description : str) (s : snapshot) (ok : bool) :
  length (saves (update_progress description s ok)) <= 1
  /\ (collect description s = _parse_progress_section description ->
      saves (update_progress description s ok) = []
      /\ stored (update_progress description s ok) = description).
Proof.
  split.
  - destruct (collect_dec description s) as [H|H].
    + rewrite (update_progress_unchanged _ _ _ H). simpl. lia.
    + rewrite (update_progress_changed _ _ _ H). destruct ok; simpl; lia.
  - intros H. rewrite (update_progress_unchanged _ _ _ H). split; reflexivity.
Qed.

Lemma at_most_one_write_witness :
  collect plain_document silent_snapshot = _parse_progress_section plain_document
  /\ saves (update_progress plain_document silent_snapshot true) = []
  /\ stored (update_progress plain_document silent_snapshot true) = plain_document.
Proof.
  split; [reflexivity|].
  apply (at_most_one_write plain_document silent_snapshot true). reflexivity.
Defined.

(** C2 (as amended). Whenever a cycle returns a state, its [acceptance] is
    the one of the stored checklist, copied, whatever the collectors compute;
    a cycle that saves nothing or whose save succeeds does return a state, so
    with [acceptance] checked in the stored checklist the state returned has
    it checked; a cycle whose save raises returns the empty dict. *)
Theorem acceptance_preserved (description : str) (s : snapshot) (ok : bool) :
  (forall p, returned (update_progress description s ok) = Some p ->
             acceptance p = acceptance (_parse_progress_section description))
  /\ (ok = true \/ saves (update_progress description s ok) = [] ->
      exists p, returned (update_progress description s ok) = Some p
                /\ acceptance p = acceptance (_parse_progress_section description))
  /\ (acceptance (_parse_progress_section description) = true ->
      ok = true \/ saves (update_progress description s ok) = [] ->
      exists p, returned (update_progress description s ok) = Some p
                /\ acceptance p = true)
  /\ (ok = false -> saves (update_progress description s ok) <> [] ->
      returned (update_progress description s ok) = None).
Proof.
  assert (Hcopy : acceptance (collect description s)
                  = acceptance (_parse_progress_section description))
    by reflexivity.
  destruct (collect_dec description s) as [H|H].
  - rewrite (update_progress_unchanged _ _ _ H). simpl. repeat split.
    + intros p [= <-]. exact Hcopy.
    + intros _. exists (collect description s). split; [reflexivity | exact Hcopy].
    + intros Hacc _. exists (collect description s).
      split; [reflexivity | now rewrite Hcopy].
    + intros _ Hs. contradiction.
  - rewrite (update_progress_changed _ _ _ H). destruct ok; simpl; repeat split.
    + intros p [= <-]. exact Hcopy.
    + intros _. exists (collect description s). split; [reflexivity | exact Hcopy].
    + intros Hacc _. exists (collect description s).
      split; [reflexivity | now rewrite Hcopy].
    + discriminate.
    + discriminate.
    + intros [Hok | Hs]; discriminate.
    + intros _ [Hok | Hs]; discriminate.
Qed.

Lemma acceptance_preserved_witness :
  acceptance (_parse_progress_section accepted_document) = true
  /\ exists p, returned (update_progress accepted_document silent_snapshot true) = Some p
               /\ acceptance p = true.
Proof.
  split; [reflexivity|].
  destruct (acceptance_preserved accepted_document silent_snapshot true)
    as (_ & _ & Hchecked & _).
  apply Hchecked; [reflexivity | left; reflexivity].
Defined.

(** C2 (as stated) fails: the stored checklist has [acceptance] checked, the
    collected state differs from it, the save raises, and the cycle returns
    the empty dict. *)
Lemma failed_save_returns_empty_dict :
  acceptance (_parse_progress_section accepted_document) = true
  /\ returned (update_progress accepted_document silent_snapshot false) = None.
Proof. split; reflexivity. Qed.

(** ** The tests signal *)

(** What [check_test_progress] computes. *)
Theorem check_test_progress_true_iff (s : snapshot) :
  check_test_progress s = true <->
  exists paths,
    tree_tests s = Some paths
    /\ (exists p, In p paths /\ startswith p (lit "test_") = true)
    /\ (pipeline s = PipelineAbsent \/ pipeline s = PipelineStatus (lit "success")).
Proof.
  unfold check_test_progress.
  assert (Hlen : forall paths : list str,
             (0 <? length (filter (fun p => startswith p (lit "test_")) paths)) = true
             <-> exists p, In p paths /\ startswith p (lit "test_") = true).
  { intros paths. rewrite Nat.ltb_lt. split.
    - intros H. destruct (filter _ paths) as [|p l] eqn:E; [simpl in H; lia|].
      exists p. apply (filter_In (fun p => startswith p (lit "test_")) p paths).
      rewrite E. now left.
    - intros (p & Hin & Hp).
      assert (Hf : In p (filter (fun p => startswith p (lit "test_")) paths))
        by (apply filter_In; auto).
      destruct (filter _ paths); [contradiction | simpl; lia]. }
  destruct (tree_tests s) as [paths|].
  - destruct (pipeline s) as [|st|].
    + rewrite Hlen. split.
      * intros H. exists paths. auto.
      * intros (ps & [= <-] & H & _). exact H.
    + rewrite andb_true_iff, Hlen, str_eqb_eq. split.
      * intros (H & ->). exists paths. auto.
      * intros (ps & [= <-] & H & [Hp | [= ->]]); [discriminate | auto].
    + split; [discriminate|].
      intros (ps & _ & _ & [Hp | Hp]); discriminate.
  - split; [discriminate|]. intros (ps & Hp & _). discriminate.
Qed.

(** X28. A listing whose paths all start at the repository root, under
    [tests/], never yields the signal. *)
Lemma check_test_progress_rooted_paths (s : snapshot) (paths : list str) :
  tree_tests s = Some paths ->
  (forall p, In p paths -> startswith p (lit "tests/") = true) ->
  check_test_progress s = false.
Proof.
  intros Ht Hall.
  destruct (check_test_progress s) eqn:E; [|reflexivity].
  apply check_test_progress_true_iff in E as (ps & Hps & (p & Hin & Hp) & _).
  rewrite Ht in Hps. injection Hps as <-.
  specialize (Hall p Hin).
  apply startswith_inv in Hall. apply startswith_inv in Hp.
  rewrite Hp in Hall. discriminate Hall.
Qed.

(** C9. The branch holds [tests/test_agent.py], a file under the tests root
    whose name begins with [test_], and no pipeline is known: the rule of the
    claim gives true, [check_test_progress] gives false, because it tests the
    whole listed path, not the file name, for the prefix. *)
Theorem tests_signal_misses_test_file :
  tree_tests tests_snapshot = Some [lit "tests/__init__.py"; lit "tests/test_agent.py"]
  /\ pipeline tests_snapshot = PipelineAbsent
  /\ file_name (lit "tests/test_agent.py") = lit "test_agent.py"
  /\ tests_signal_spec [lit "tests/__init__.py"; lit "tests/test_agent.py"] PipelineAbsent = true
  /\ check_test_progress tests_snapshot = false.
Proof. repeat split; reflexivity. Qed.

(** ** The status policy *)

(** C6. The status derived from a checklist is "done" when [acceptance]
    holds, else "in_review" when [review] holds, else "in_progress" when one
    of [implementation], [tests], [documentation] holds, else "to_do". *)
Theorem status_first_match (p : progress) (key : str) :
  new_status (Some p) = derived_status p
  /\ new_status (Some p)
     = (if acceptance p then lit "done"
        else if review p then lit "in_review"
        else if implementation p || tests p || documentation p then lit "in_progress"
        else lit "to_do")
  /\ update_jira_status key (Some p) = [(key, derived_status p)].
Proof.
  assert (H : new_status (Some p) = derived_status p).
  { unfold new_status, derived_status, STATUS_POLICY. cbn.
    destruct (acceptance p); [reflexivity|].
    destruct (review p); [reflexivity|].
    rewrite orb_false_r, orb_assoc.
    destruct (implementation p || tests p || documentation p); reflexivity. }
  repeat split.
  - exact H.
  - rewrite H. unfold derived_status, STATUS_POLICY. cbn.
    destruct (acceptance p); [reflexivity|].
    destruct (review p); [reflexivity|].
    destruct (implementation p || tests p || documentation p); reflexivity.
  - unfold update_jira_status. now rewrite H.
Qed.

(** ** The tracked set *)

Lemma dict_get_In (key : str) (d : active_mrs) (v : mr_info) :
  dict_get key d = Some v -> In (key, v) d.
Proof.
  induction d as [|[k w] d IH]; simpl; [discriminate|].
  destruct (str_eqb key k) eqn:E.
  - apply str_eqb_eq in E. intros [= ->]. left. now subst.
  - intros H. right. now apply IH.
Qed.

Lemma dict_get_None (key : str) (d : active_mrs) :
  dict_get key d = None <-> ~ In key (map fst d).
Proof.
  induction d as [|[k w] d IH]; simpl.
  - tauto.
  - destruct (str_eqb key k) eqn:E.
    + apply str_eqb_eq in E. subst. split; [discriminate | tauto].
    + apply str_eqb_neq in E. rewrite IH. split; [intros H [Hk | Hin] | ]; try tauto.
      congruence.
Qed.

Lemma dict_get_app_absent (key : str) (d : active_mrs) (v : mr_info) :
  dict_get key d = None -> dict_get key (d ++ [(key, v)]) = Some v.
Proof.
  induction d as [|[k w] d IH]; simpl.
  - now rewrite str_eqb_refl.
  - destruct (str_eqb key k); [discriminate | exact IH].
Qed.

Lemma dict_del_keys (key k : str) (d : active_mrs) :
  In k (map fst (dict_del key d)) -> In k (map fst d).
Proof.
  induction d as [|[k' w] d IH]; simpl; [tauto|].
  destruct (str_eqb key k'); simpl; tauto.
Qed.

Lemma dict_del_gone (key : str) (d : active_mrs) :
  NoDup (map fst d) -> dict_get key (dict_del key d) = None.
Proof.
  induction d as [|[k w] d IH]; simpl; intros Hnd; [reflexivity|].
  inversion Hnd as [|? ? Hk Hd]; subst.
  destruct (str_eqb key k) eqn:E.
  - apply str_eqb_eq in E. subst. now apply dict_get_None.
  - simpl. rewrite E. now apply IH.
Qed.

Lemma dict_del_other (key k : str) (d : active_mrs) :
  k <> key -> dict_get k (dict_del key d) = dict_get k d.
Proof.
  intros Hne. induction d as [|[k' w] d IH]; simpl; [reflexivity|].
  destruct (str_eqb key k') eqn:E.
  - apply str_eqb_eq in E. subst k'.
    apply str_eqb_neq in Hne. now rewrite Hne.
  - simpl. destruct (str_eqb k k'); [reflexivity | exact IH].
Qed.

Lemma touch_keys (key : str) (t : Z) (d : active_mrs) :
  map fst (touch key t d) = map fst d.
Proof.
  induction d as [|[k w] d IH]; simpl; [reflexivity|].
  destruct (str_eqb key k); simpl; [reflexivity | now rewrite IH].
Qed.

Lemma touch_other (key k : str) (t : Z) (d : active_mrs) :
  k <> key -> dict_get k (touch key t d) = dict_get k d.
Proof.
  intros Hne. induction d as [|[k' w] d IH]; simpl; [reflexivity|].
  destruct (str_eqb key k') eqn:E; simpl.
  - apply str_eqb_eq in E. subst k'.
    apply str_eqb_neq in Hne. now rewrite Hne.
  - destruct (str_eqb k k'); [reflexivity | exact IH].
Qed.

Lemma dict_mem_touch (key k : str) (t : Z) (d : active_mrs) :
  dict_mem k (touch key t d) = dict_mem k d.
Proof.
  unfold dict_mem.
  destruct (dict_get k d) eqn:E, (dict_get k (touch key t d)) eqn:F; try reflexivity.
  - apply dict_get_None in F. rewrite touch_keys in F.
    apply dict_get_None in F. congruence.
  - apply dict_get_None in E. rewrite <- (touch_keys key t) in E.
    apply dict_get_None in E. congruence.
Qed.

Lemma remove_merge_request_gone (d : active_mrs) (p m : Z) :
  NoDup (map fst d) -> dict_mem (mr_key p m) (remove_merge_request d p m) = false.
Proof.
  intros Hnd. unfold remove_merge_request.
  destruct (dict_mem (mr_key p m) d) eqn:E; [|exact E].
  unfold dict_mem. now rewrite dict_del_gone.
Qed.

Lemma remove_merge_request_other (d : active_mrs) (p m : Z) (k : str) :
  k <> mr_key p m -> dict_get k (remove_merge_request d p m) = dict_get k d.
Proof.
  intros Hne. unfold remove_merge_request.
  destruct (dict_mem (mr_key p m) d); [now apply dict_del_other | reflexivity].
Qed.

(** The tracked set stays well formed under registration and removal. *)
Lemma wf_store_nil : wf_store [].
Proof. split; constructor. Qed.

Lemma wf_store_add (d : active_mrs) (p m : Z) (k : str) (now : Z) :
  wf_store d -> wf_store (add_merge_request d p m k now).
Proof.
  intros [Hnd Hk]. unfold add_merge_request, dict_mem.
  destruct (dict_get (mr_key p m) d) eqn:E; simpl; [now split|].
  apply dict_get_None in E. split.
  - rewrite map_app. simpl.
    apply NoDup_app; [exact Hnd | repeat constructor; simpl; tauto |].
    intros x Hx [<- | []]. contradiction.
  - apply Forall_app. split; [exact Hk|]. repeat constructor.
Qed.

Lemma wf_store_remove (d : active_mrs) (p m : Z) :
  wf_store d -> wf_store (remove_merge_request d p m).
Proof.
  intros [Hnd Hk]. unfold remove_merge_request.
  destruct (dict_mem (mr_key p m) d); [|now split].
  generalize (mr_key p m) as key. intros key.
  induction d as [|[k' w] d IH]; simpl; [now split|].
  inversion Hnd as [|? ? Hn Hd]; inversion Hk as [|? ? Hh Ht]; subst.
  destruct (str_eqb key k'); [now split|].
  destruct (IH Hd Ht) as [Hnd' Hk']. split.
  - simpl. constructor; [|exact Hnd']. intros Hin. apply Hn.
    now apply dict_del_keys in Hin.
  - constructor; assumption.
Qed.

(** C10. Registering a merge request whose key is in the store leaves the
    store as it is: the entry keeps its issue key and its time of last
    update, whatever issue key the call brings. *)
Theorem add_tracked_is_noop (d : active_mrs) (p m : Z) (k : str) (now : Z)
  (info : mr_info) :
  dict_get (mr_key p m) d = Some info ->
  add_merge_request d p m k now = d
  /\ dict_get (mr_key p m) (add_merge_request d p m k now) = Some info.
Proof.
  intros H.
  assert (E : add_merge_request d p m k now = d).
  { unfold add_merge_request, dict_mem. now rewrite H. }
  rewrite E. split; [reflexivity | exact H].
Qed.

Lemma add_tracked_is_noop_witness :
  dict_get (mr_key 42 7) one_entry_store = Some (MrInfo 42 7 (lit "PROJ-7") 0)
  /\ add_merge_request one_entry_store 42 7 (lit "OTHER-1") 900 = one_entry_store
  /\ dict_get (mr_key 42 7) (add_merge_request one_entry_store 42 7 (lit "OTHER-1") 900)
     = Some (MrInfo 42 7 (lit "PROJ-7") 0).
Proof.
  split; [reflexivity|].
  apply (add_tracked_is_noop one_entry_store 42 7 (lit "OTHER-1") 900
           (MrInfo 42 7 (lit "PROJ-7") 0)).
  reflexivity.
Defined.

(** A merge request that is not tracked is appended under its key. *)
Lemma add_untracked (d : active_mrs) (p m : Z) (k : str) (now : Z) :
  dict_get (mr_key p m) d = None ->
  dict_get (mr_key p m) (add_merge_request d p m k now) = Some (MrInfo p m k now).
Proof.
  intros H. unfold add_merge_request, dict_mem. rewrite H. simpl.
  now apply dict_get_app_absent.
Qed.

(** ** The monitoring cycle *)

(** C3 (as amended). In the cycle of a due entry whose merge request is
    "merged" or "closed", the entry leaves the tracked set and the other
    entries stay; the status derived from the returned checklist is pushed
    all the same, unless the returned dict is empty. *)
Theorem terminal_cycle_removes_and_pushes (env : cycle_env) (now interval : Z)
  (d : active_mrs) (key : str) (info : mr_info) (st : str) :
  NoDup (map fst d) ->
  key = mr_key (project_id info) (mr_iid info) ->
  (interval <= now - last_update info)%Z ->
  mr_state env = Some st ->
  st = lit "merged" \/ st = lit "closed" ->
  dict_mem key (fst (monitor_entry env now interval d (key, info))) = false
  /\ (forall k, k <> key ->
                dict_get k (fst (monitor_entry env now interval d (key, info)))
                = dict_get k d)
  /\ snd (monitor_entry env now interval d (key, info))
     = match agent_progress env with
       | Some p => [(issue_key info, new_status (Some p))]
       | None => []
       end.
Proof.
  intros Hnd Hkey Hdue Hst Hterm.
  unfold monitor_entry, update_merge_request_status.
  apply Z.leb_le in Hdue. rewrite Hdue, Hst.
  assert (Hin : existsb (str_eqb st) [lit "merged"; lit "closed"] = true).
  { destruct Hterm as [-> | ->]; reflexivity. }
  rewrite Hin. cbn [fst snd]. repeat split.
  - rewrite dict_mem_touch, Hkey. now apply remove_merge_request_gone.
  - intros k Hk. rewrite (touch_other _ _ _ _ Hk).
    apply remove_merge_request_other. now rewrite <- Hkey.
  - destruct (agent_progress env); reflexivity.
Qed.

Lemma terminal_cycle_removes_and_pushes_witness :
  let info := MrInfo 42 7 (lit "PROJ-7") 0 in
  let key := mr_key 42 7 in
  dict_mem key one_entry_store = true
  /\ dict_mem key (fst (monitor_entry merged_env 300 300 one_entry_store (key, info)))
     = false
  /\ snd (monitor_entry merged_env 300 300 one_entry_store (key, info))
     = [(lit "PROJ-7", lit "to_do")].
Proof.
  intros info key.
  assert (Hnd : NoDup (map fst one_entry_store))
    by (apply (wf_store_add [] 42 7 (lit "PROJ-7") 0 wf_store_nil)).
  assert (Hdue : (300 <= 300 - last_update info)%Z) by (simpl; lia).
  destruct (terminal_cycle_removes_and_pushes merged_env 300 300 one_entry_store
              key info (lit "merged") Hnd eq_refl Hdue eq_refl (or_introl eq_refl))
    as (Hgone & _ & Hpush).
  split; [reflexivity|]. split; [exact Hgone | exact Hpush].
Defined.

(** C3 (as stated) fails: the merge request is "merged", the entry is
    removed, and the status "to_do" is pushed in that same cycle. *)
Lemma merged_cycle_still_pushes :
  let info := MrInfo 42 7 (lit "PROJ-7") 0 in
  mr_state merged_env = Some (lit "merged")
  /\ fst (monitor_entry merged_env 300 300 one_entry_store (mr_key 42 7, info)) = []
  /\ snd (monitor_entry merged_env 300 300 one_entry_store (mr_key 42 7, info))
     = [(lit "PROJ-7", lit "to_do")]
  /\ snd (monitor_pass (fun _ => merged_env) 300 300 one_entry_store) <> [].
Proof. repeat split; try reflexivity. vm_compute. discriminate. Qed.

(** * Further properties *)

(** ** The scan, once more *)

Lemma startswith_app_long (x b sub : str) :
  length sub <= length x -> startswith (x ++ b) sub = startswith x sub.
Proof.
  revert x; induction sub as [|a sub IH]; intros x H; simpl; [reflexivity|].
  destruct x as [|c x]; simpl in *; [lia|].
  rewrite IH by lia. reflexivity.
Qed.

(** Whether [sub] starts at [j] depends on the text up to [j + len(sub)] only. *)
Lemma startswith_skipn_prefix (a b sub : str) (j : nat) :
  j + length sub <= length a ->
  startswith (skipn j (a ++ b)) sub = startswith (skipn j a) sub.
Proof.
  intros H. rewrite skipn_app.
  replace (j - length a) with 0 by lia. simpl skipn.
  apply startswith_app_long. rewrite length_skipn. lia.
Qed.

Lemma find_first (sub s : str) (n : nat) :
  n <= length s ->
  startswith (skipn n s) sub = true ->
  (forall j, j < n -> startswith (skipn j s) sub = false) ->
  find sub s = Some n.
Proof.
  intros Hn Hs Hj. unfold find.
  rewrite <- (firstn_skipn n s).
  rewrite find_in_skip.
  - rewrite length_firstn, Nat.min_l by exact Hn. now apply find_in_here.
  - intros j Hlt. rewrite firstn_skipn. apply Hj.
    rewrite length_firstn in Hlt. lia.
Qed.

(** ** Writing, then reading *)

Lemma update_with_header (doc : str) (q : progress) (start : nat) :
  find HEADER doc = Some start ->
  _update_progress_section doc q
  = firstn start doc ++ render q ++ section_after doc start.
Proof.
  intros H. unfold _update_progress_section, section_after. now rewrite H.
Qed.

Lemma section_after_starts (doc : str) (start : nat) :
  section_after doc start = [] \/ startswith (section_after doc start) HASHES = true.
Proof.
  unfold section_after, find_start, slice_from.
  destruct (find_in HASHES (skipn (start + 1) doc) (start + 1)) as [e|] eqn:E;
    [right | now left].
  destruct (find_in_Some _ _ _ _ E) as (n & -> & _ & Hs & _).
  replace (start + 1 + n) with (n + (start + 1)) by lia.
  now rewrite <- skipn_skipn.
Qed.

(** The header stays the first one after a rewrite. *)
Lemma header_kept (doc : str) (q : progress) (start : nat) :
  find HEADER doc = Some start ->
  find HEADER (firstn start doc ++ render q ++ section_after doc start)
  = Some (length (firstn start doc)).
Proof.
  intros Hfind.
  destruct (find_Some_split _ _ _ Hfind) as (Hdoc & Hlen & Hfirst).
  set (before := firstn start doc) in *.
  assert (Hb : length before = start) by (apply firstn_length_le; exact Hlen).
  rewrite render_header_body, <- !app_assoc.
  apply find_first.
  - rewrite length_app. lia.
  - rewrite skipn_length_app. apply startswith_app.
  - intros j Hj.
    rewrite (app_assoc before HEADER), startswith_skipn_prefix
      by (rewrite length_app; lia).
    rewrite <- (Hfirst j) by lia.
    rewrite Hdoc at 1.
    rewrite (app_assoc before HEADER).
    rewrite (startswith_skipn_prefix (before ++ HEADER) _ HEADER j)
      by (rewrite length_app; lia).
    reflexivity.
Qed.

Lemma update_canonical (doc : str) (q : progress) (start : nat) :
  find HEADER doc = Some start ->
  canonical_document (_update_progress_section doc q) (firstn start doc) q
    (section_after doc start).
Proof.
  intros Hfind. rewrite (update_with_header _ _ _ Hfind).
  split; [reflexivity|]. split.
  - now apply header_kept.
  - apply section_after_starts.
Qed.

(** X1. What [_update_progress_section] writes into a document that holds
    the header is a canonical document, and reading it back gives the state
    written, with [implementation] unchecked. *)
Theorem update_then_parse (doc : str) (q : progress) (start : nat) :
  find HEADER doc = Some start ->
  canonical_document (_update_progress_section doc q) (firstn start doc) q
    (section_after doc start)
  /\ _parse_progress_section (_update_progress_section doc q) = readable q.
Proof.
  intros Hfind.
  pose proof (update_canonical doc q start Hfind) as Hc.
  split; [exact Hc|]. exact (canonical_parse _ _ _ _ Hc).
Qed.

Lemma update_then_parse_witness :
  find HEADER sample_document = Some 6
  /\ _parse_progress_section (_update_progress_section sample_document all_done)
     = readable all_done.
Proof.
  split; [reflexivity|].
  apply (update_then_parse sample_document all_done 6). reflexivity.
Defined.

(** X2. The last state written wins: rewriting a rewritten document gives
    what rewriting the first one gives, header or not. *)
Theorem update_last_wins (doc : str) (q r : progress) :
  _update_progress_section (_update_progress_section doc q) r
  = _update_progress_section doc r.
Proof.
  destruct (find HEADER doc) as [start|] eqn:Hfind.
  - pose proof (update_canonical doc q start Hfind) as Hc.
    rewrite (canonical_update _ _ _ _ r Hc).
    symmetry. now apply update_with_header.
  - assert (E : forall p, _update_progress_section doc p = doc).
    { intros p. unfold _update_progress_section. now rewrite Hfind. }
    now rewrite !E.
Qed.

(** ** What sets an item *)

Lemma get_set_item (it it' : item) (p : progress) :
  get_item it (set_item it' p) = true <-> it = it' \/ get_item it p = true.
Proof.
  destruct it, it'; simpl; split; intros H; auto;
    try (destruct H as [H|H]; [discriminate H | exact H]); now right.
Qed.

Lemma fold_parse_item (lines : list str) (p : progress) (it : item) :
  get_item it (fold_left parse_line lines p) = true <->
  get_item it p = true
  \/ exists line kw, In line lines /\ is_checked line = true
                     /\ first_match (lower line) = Some (it, kw).
Proof.
  revert p; induction lines as [|l lines IH]; intros p; simpl.
  - split; [now left | intros [H | (line & kw & [] & _)]; exact H].
  - rewrite IH, parse_line_first_match. split.
    + intros [H | (line & kw & Hin & Hc & Hm)].
      * destruct (is_checked l) eqn:Hc; [|now left].
        destruct (first_match (lower l)) as [[it' kw]|] eqn:Hm; [|now left].
        apply get_set_item in H as [-> | H]; [|now left].
        right. exists l, kw. auto.
      * right. exists line, kw. auto.
    + intros [H | (line & kw & [<- | Hin] & Hc & Hm)].
      * left. destruct (is_checked l); [|exact H].
        destruct (first_match (lower l)) as [[it' kw]|]; [|exact H].
        apply get_set_item. now right.
      * left. rewrite Hc, Hm. apply get_set_item. now left.
      * right. exists line, kw. auto.
Qed.

(** X3. An item is read as checked exactly when some line of the section
    holds a checked box and the first keyword of the table found in it is
    the item's; unchecked lines and lines without a keyword set nothing. *)
Theorem parse_item_iff (doc : str) (start : nat) (it : item) :
  find HEADER doc = Some start ->
  get_item it (_parse_progress_section doc) = true <->
  exists line kw,
    In line (split newline (progress_section doc start))
    /\ is_checked line = true
    /\ first_match (lower line) = Some (it, kw).
Proof.
  intros Hfind. unfold _parse_progress_section. rewrite Hfind.
  rewrite fold_parse_item. split.
  - intros [H | H]; [destruct it; discriminate H | exact H].
  - intros H. now right.
Qed.

Lemma parse_item_iff_witness :
  find HEADER sample_document = Some 6
  /\ get_item ISetup (_parse_progress_section sample_document) = true.
Proof.
  split; [reflexivity|].
  apply (parse_item_iff sample_document 6 ISetup); [reflexivity|].
  exists (lit "- [x] Initial setup complete"), (lit "setup").
  split; [|split; reflexivity].
  right. left. reflexivity.
Defined.

(** ** The generated description *)

Lemma description_checklist_rendered :
  description_checklist = render progress_default.
Proof. reflexivity. Qed.

Lemma description_after_starts (story : story_details) (jira_url generated_at : str) :
  startswith (description_after story jira_url generated_at) HASHES = true.
Proof. reflexivity. Qed.

(** X4. The description generated for a new merge request is a canonical
    document with every box unchecked, as long as the header of the template
    is the first one in the text: it is read as the all-false state, and a
    rewrite changes the checklist and nothing else. *)
Theorem generated_description_canonical (story : story_details)
  (prompts : string -> option str) (p : prompt_texts) (jira_url generated_at : str) :
  prompts_give prompts p ->
  find HEADER (description_before story p ++ HEADER)
  = Some (length (description_before story p)) ->
  exists text,
    generate_mr_description story prompts jira_url generated_at = Some text
    /\ canonical_document text (description_before story p) progress_default
         (description_after story jira_url generated_at)
    /\ _parse_progress_section text = progress_default
    /\ forall q, _update_progress_section text q
                 = description_before story p ++ render q
                   ++ description_after story jira_url generated_at.
Proof.
  intros (Hs & Hi & Ht & Hd & Hr) Hfirst.
  unfold generate_mr_description.
  rewrite Hs, Hi, Ht, Hd, Hr.
  replace (PromptTexts (p_structure p) (p_implementation p) (p_tests p)
             (p_documentation p) (p_review p)) with p by (destruct p; reflexivity).
  set (before := description_before story p) in *.
  set (after := description_after story jira_url generated_at).
  assert (Hc : canonical_document (before ++ description_checklist ++ after)
                 before progress_default after).
  { split; [now rewrite description_checklist_rendered|]. split.
    - destruct (find_Some_split _ _ _ Hfirst) as (_ & _ & Hj).
      rewrite description_checklist_rendered, render_header_body, <- app_assoc.
      apply find_first.
      + rewrite length_app. lia.
      + rewrite skipn_length_app. apply startswith_app.
      + intros j Hlt. rewrite app_assoc.
        rewrite (startswith_skipn_prefix (before ++ HEADER) _ HEADER j)
          by (rewrite length_app; lia).
        now apply Hj.
    - right. apply description_after_starts. }
  eexists. split; [reflexivity|].
  split; [exact Hc|]. split.
  - exact (canonical_parse _ _ _ _ Hc).
  - intros q. exact (canonical_update _ _ _ _ q Hc).
Qed.

Lemma generated_description_canonical_witness :
  exists text,
    generate_mr_description sample_story (prompts_of sample_prompts)
      (lit "https://jira.example.org") (lit "2024-05-01 10:00:00") = Some text
    /\ _parse_progress_section text = progress_default.
Proof.
  destruct (generated_description_canonical sample_story (prompts_of sample_prompts)
              sample_prompts (lit "https://jira.example.org") (lit "2024-05-01 10:00:00"))
    as (text & Hgen & _ & Hparse & _).
  - repeat split.
  - vm_compute. reflexivity.
  - exists text. split; assumption.
Defined.

(** ** The signal rules *)

Lemma endswith_iff (s sub : str) :
  endswith s sub = true <-> exists pre, s = pre ++ sub.
Proof.
  unfold endswith. split.
  - intros H. apply startswith_inv in H.
    apply (f_equal (@rev ascii)) in H.
    rewrite rev_involutive, rev_app_distr, rev_involutive in H.
    eexists. exact H.
  - intros (pre & ->). rewrite rev_app_distr. apply startswith_app.
Qed.

Lemma filter_nonempty (f : str -> bool) (l : list str) :
  (0 <? length (filter f l)) = existsb f l.
Proof.
  induction l as [|x l IH]; simpl; [reflexivity|].
  destruct (f x); simpl; [reflexivity | exact IH].
Qed.

Lemma existsb_incl (f : str -> bool) (l l' : list str) :
  incl l l' -> existsb f l = true -> existsb f l' = true.
Proof.
  intros Hincl H. apply existsb_exists in H as (x & Hin & Hx).
  apply existsb_exists. exists x. auto.
Qed.

(** X5. [check_structure_progress] holds exactly when the listing of the
    branch succeeds and, for each of the names [src], [tests], [__init__.py],
    [requirements.txt] and [README.md], some listed path ends with it. *)
Theorem check_structure_progress_iff (s : snapshot) :
  check_structure_progress s = true <->
  exists files,
    tree_all s = Some files
    /\ forall name,
         In name [lit "src"; lit "tests"; lit "__init__.py"; lit "requirements.txt";
                  lit "README.md"] ->
         exists f pre, In f files /\ f = pre ++ name.
Proof.
  unfold check_structure_progress.
  destruct (tree_all s) as [files|].
  - rewrite forallb_forall. split.
    + intros H. exists files. split; [reflexivity|]. intros name Hname.
      assert (Hp : exists pattern, In pattern required_patterns
                                   /\ strip slash pattern = name).
      { simpl in Hname.
        destruct Hname as [<-|[<-|[<-|[<-|[<-|[]]]]]];
          [exists (lit "src/") | exists (lit "tests/") | exists (lit "__init__.py")
           | exists (lit "requirements.txt") | exists (lit "README.md")];
          (split; [simpl; tauto | reflexivity]). }
      destruct Hp as (pattern & Hin & <-).
      specialize (H pattern Hin). apply existsb_exists in H as (f & Hf & He).
      apply endswith_iff in He as (pre & ->). exists (pre ++ strip slash pattern), pre.
      auto.
    + intros (fs & [= <-] & H) pattern Hin.
      assert (Hname : In (strip slash pattern)
                        [lit "src"; lit "tests"; lit "__init__.py";
                         lit "requirements.txt"; lit "README.md"]).
      { simpl in Hin. destruct Hin as [<-|[<-|[<-|[<-|[<-|[]]]]]]; simpl; tauto. }
      destruct (H _ Hname) as (f & pre & Hf & ->).
      apply existsb_exists. exists (pre ++ strip slash pattern). split; [exact Hf|].
      apply endswith_iff. now exists pre.
  - split; [discriminate | intros (fs & Hfs & _); discriminate].
Qed.



(** X7. [check_review_progress] holds exactly when both calls succeed, there
    is at least one approval and no discussion exposes [resolved = False];
    discussions without the flag do not count. *)
Theorem check_review_progress_iff (s : snapshot) :
  check_review_progress s = true <->
  exists n ds,
    approved_by s = Some n /\ discussions s = Some ds
    /\ 0 < n /\ ~ In (Some false) ds.
Proof.
  assert (Hall : forall ds : list (option bool),
             forallb (fun d => match d with Some r => r | None => true end) ds = true
             <-> ~ In (Some false) ds).
  { induction ds as [|d ds IH]; simpl; [tauto|].
    rewrite andb_true_iff, IH.
    destruct d as [[]|]; split; intros H.
    - intros [E|Hin]; [discriminate | tauto].
    - split; [reflexivity | tauto].
    - destruct H as [E _]. discriminate E.
    - exfalso. apply H. now left.
    - intros [E|Hin]; [discriminate | tauto].
    - split; [reflexivity | tauto]. }
  unfold check_review_progress.
  destruct (approved_by s) as [n|].
  - destruct (discussions s) as [ds|].
    + rewrite andb_true_iff, Nat.ltb_lt, Hall. split.
      * intros [Hn Hd]. exists n, ds. auto.
      * intros (n' & ds' & [= <-] & [= <-] & Hn & Hd). auto.
    + split; [discriminate | intros (n' & ds' & _ & Hd & _); discriminate].
  - split; [discriminate | intros (n' & ds' & Hn & _); discriminate].
Qed.

(** X8. Listing more paths, in the branch or in the diff, never unsets a
    file-based signal: setup, implementation, tests and documentation are
    monotone in the lists the code host returns. *)
Theorem file_signals_monotone (s s' : snapshot) :
  snapshot_grows s s' ->
  (check_structure_progress s = true -> check_structure_progress s' = true)
  /\ (check_implementation_progress s = true -> check_implementation_progress s' = true)
  /\ (check_test_progress s = true -> check_test_progress s' = true)
  /\ (check_documentation_progress s = true -> check_documentation_progress s' = true).
Proof.
  intros (Ha & Ht & Hc & Hp).
  unfold check_structure_progress, check_implementation_progress,
    check_test_progress, check_documentation_progress, list_grows in *.
  rewrite <- Hp.
  destruct (tree_all s) as [fa|], (tree_all s') as [fa'|];
    destruct (tree_tests s) as [ft|], (tree_tests s') as [ft'|];
    destruct (changes s) as [fc|], (changes s') as [fc'|];
    try contradiction; repeat split; try discriminate; rewrite ?filter_nonempty;
    intros H;
    repeat match goal with
      | H : forallb _ _ = true |- forallb _ _ = true =>
          let x := fresh "x" in let Hx := fresh "Hx" in
          rewrite forallb_forall in H |- *; intros x Hx; specialize (H x Hx)
      | H : _ && _ = true |- _ => apply andb_true_iff in H; destruct H
      | |- _ && _ = true => apply andb_true_iff; split
      | H : existsb ?f ?l = true |- existsb ?f ?l' = true =>
          apply (existsb_incl f l l'); assumption
      | H : match pipeline s with _ => _ end = true |- _ =>
          destruct (pipeline s)
      | |- _ => assumption
      | |- _ => discriminate
      end.
Qed.

Lemma file_signals_monotone_witness :
  snapshot_grows bare_snapshot ready_snapshot
  /\ check_implementation_progress bare_snapshot = true
  /\ check_implementation_progress ready_snapshot = true.
Proof.
  assert (H : snapshot_grows bare_snapshot ready_snapshot).
  { repeat split.
    - intros x [<- | []]. simpl. tauto.
    - intros x [<- | []]. simpl. tauto. }
  split; [exact H|]. split; [reflexivity|].
  apply (file_signals_monotone bare_snapshot ready_snapshot H). reflexivity.
Defined.

Lemma check_test_progress_rooted_paths_witness :
  (forall p, In p [lit "tests/__init__.py"; lit "tests/test_agent.py"] ->
             startswith p (lit "tests/") = true)
  /\ check_test_progress tests_snapshot = false.
Proof.
  assert (H : forall p, In p [lit "tests/__init__.py"; lit "tests/test_agent.py"] ->
                        startswith p (lit "tests/") = true).
  { intros p [<- | [<- | []]]; reflexivity. }
  split; [exact H|].
  apply (check_test_progress_rooted_paths tests_snapshot _ eq_refl H).
Defined.

(** ** Cycle after cycle *)

Lemma find_header_absent (doc : str) :
  (forall pre post, doc <> pre ++ HEADER ++ post) -> find HEADER doc = None.
Proof.
  intros Hno. destruct (find HEADER doc) as [k|] eqn:E; [|reflexivity].
  exfalso. destruct (find_Some_split _ _ _ E) as (Hdoc & _).
  exact (Hno _ _ Hdoc).
Qed.

Lemma collect_after_update (description : str) (s : snapshot) (start : nat) :
  find HEADER description = Some start ->
  collect (_update_progress_section description (collect description s)) s
  = collect description s.
Proof.
  intros Hfind. unfold collect at 1 3.
  f_equal.
  rewrite (canonical_parse _ _ _ _ (update_canonical _ (collect description s) _ Hfind)).
  reflexivity.
Qed.

(** X9. After a cycle that saved a rewritten description, the next cycle on
    the same answers of the code host returns the same state and leaves the
    description as it is; it saves nothing when the implementation signal is
    off, and saves the very same text again when it is on, because the
    [implementation] box is never read back as checked. *)
Theorem second_cycle (description : str) (s : snapshot) (start : nat) :
  find HEADER description = Some start ->
  collect description s <> _parse_progress_section description ->
  let first := update_progress description s true in
  let second := update_progress (stored first) s true in
  returned second = returned first
  /\ stored second = stored first
  /\ saves second = if check_implementation_progress s then [stored first] else [].
Proof.
  intros Hfind Hne.
  rewrite (update_progress_changed _ _ true Hne). cbn zeta. cbn [stored returned].
  set (new := collect description s) in *.
  set (updated := _update_progress_section description new).
  pose proof (update_canonical description new start Hfind) as Hc. fold updated in Hc.
  assert (Hcollect : collect updated s = new)
    by (apply (collect_after_update _ _ _ Hfind)).
  assert (Hparse : _parse_progress_section updated = readable new)
    by (exact (canonical_parse _ _ _ _ Hc)).
  assert (Himpl : implementation new = check_implementation_progress s) by reflexivity.
  destruct (check_implementation_progress s) eqn:E.
  - assert (Hne2 : collect updated s <> _parse_progress_section updated).
    { rewrite Hcollect, Hparse. intros H. apply (f_equal implementation) in H.
      rewrite Himpl in H. discriminate H. }
    rewrite (update_progress_changed _ _ true Hne2). cbn zeta. cbn [stored returned saves].
    rewrite Hcollect.
    assert (Hsame : _update_progress_section updated new = updated).
    { rewrite (canonical_update _ _ _ _ new Hc). destruct Hc as [Hc _]. now symmetry. }
    rewrite Hsame. repeat split.
  - assert (Heq : collect updated s = _parse_progress_section updated).
    { rewrite Hcollect, Hparse. destruct new; simpl in *. now subst. }
    rewrite (update_progress_unchanged _ _ true Heq). cbn [stored returned saves].
    rewrite Hcollect. repeat split.
Qed.

Lemma second_cycle_witness :
  let first := update_progress accepted_document ready_snapshot true in
  let second := update_progress (stored first) ready_snapshot true in
  find HEADER accepted_document = Some 0
  /\ returned second = returned first
  /\ stored second = stored first
  /\ saves second = [stored first].
Proof.
  intros first second. split; [reflexivity|].
  apply (second_cycle accepted_document ready_snapshot 0); [reflexivity|].
  vm_compute. discriminate.
Defined.

(** X10. A description without the header is never changed by a cycle: the
    cycle saves nothing when the five signals are off, and otherwise saves
    the description as it was; no section is ever added. *)
Theorem cycle_without_header (description : str) (s : snapshot) (ok : bool) :
  (forall pre post, description <> pre ++ HEADER ++ post) ->
  stored (update_progress description s ok) = description
  /\ (saves (update_progress description s ok) = []
      \/ saves (update_progress description s ok) = [description])
  /\ (saves (update_progress description s ok) = [] <->
      check_structure_progress s = false /\ check_implementation_progress s = false
      /\ check_test_progress s = false /\ check_documentation_progress s = false
      /\ check_review_progress s = false).
Proof.
  intros Hno. pose proof (find_header_absent _ Hno) as Hfind.
  assert (Hparse : _parse_progress_section description = progress_default)
    by (unfold _parse_progress_section; now rewrite Hfind).
  assert (Hupd : forall q, _update_progress_section description q = description)
    by (intros q; unfold _update_progress_section; now rewrite Hfind).
  destruct (collect_dec description s) as [H|H].
  - rewrite (update_progress_unchanged _ _ _ H). cbn [stored saves].
    split; [reflexivity|]. split; [now left|]. split; [intros _|reflexivity].
    rewrite Hparse in H. unfold collect in H. injection H as -> -> -> -> -> _.
    repeat split.
  - rewrite (update_progress_changed _ _ _ H). cbn zeta. rewrite Hupd.
    destruct ok; cbn [stored saves]; (split; [reflexivity|]; split; [now right|]);
      (split; [discriminate|]); intros (H1 & H2 & H3 & H4 & H5); exfalso; apply H;
      rewrite Hparse; unfold collect; rewrite H1, H2, H3, H4, H5, Hparse; reflexivity.
Qed.

Lemma cycle_without_header_witness :
  (forall pre post, plain_document <> pre ++ HEADER ++ post)
  /\ stored (update_progress plain_document ready_snapshot true) = plain_document
  /\ saves (update_progress plain_document ready_snapshot true) = [plain_document].
Proof.
  assert (H : forall pre post, plain_document <> pre ++ HEADER ++ post)
    by (apply find_None_no_occurrence; reflexivity).
  split; [exact H|].
  destruct (cycle_without_header plain_document ready_snapshot true H) as (Hs & _ & _).
  split; [exact Hs | reflexivity].
Defined.

(** ** Keys of the tracked set *)

Lemma string_of_uint_chars (d : Decimal.uint) :
  forallb key_char (lit (NilEmpty.string_of_uint d)) = true.
Proof. induction d; simpl; auto. Qed.

Lemma str_of_Z_chars (z : Z) : forallb key_char (str_of_Z z) = true.
Proof.
  unfold str_of_Z, NilZero.string_of_int, NilZero.string_of_uint.
  destruct (Z.to_int z) as [d|d]; destruct d; try reflexivity;
    try apply (string_of_uint_chars (Decimal.D0 _));
    try apply (string_of_uint_chars (Decimal.D1 _));
    try apply (string_of_uint_chars (Decimal.D2 _));
    try apply (string_of_uint_chars (Decimal.D3 _));
    try apply (string_of_uint_chars (Decimal.D4 _));
    try apply (string_of_uint_chars (Decimal.D5 _));
    try apply (string_of_uint_chars (Decimal.D6 _));
    try apply (string_of_uint_chars (Decimal.D7 _));
    try apply (string_of_uint_chars (Decimal.D8 _));
    try apply (string_of_uint_chars (Decimal.D9 _)).
Qed.

Lemma lit_inj (a b : string) : lit a = lit b -> a = b.
Proof.
  intros H. rewrite <- (string_of_list_ascii_of_string a),
    <- (string_of_list_ascii_of_string b).
  unfold lit in H. now rewrite H.
Qed.

Lemma str_of_Z_inj (a b : Z) : str_of_Z a = str_of_Z b -> a = b.
Proof.
  intros H. apply lit_inj in H.
  apply DecimalZ.to_int_inj.
  assert (Hnn : forall z, Z.to_int z <> Decimal.Pos Decimal.Nil
                          /\ Z.to_int z <> Decimal.Neg Decimal.Nil).
  { intros [|p|p]; simpl; split; try discriminate; intros [= E];
      exact (DecimalPos.Unsigned.to_uint_nonnil p E). }
  destruct (Hnn a) as [Ha1 Ha2], (Hnn b) as [Hb1 Hb2].
  pose proof (NilZero.isi _ Ha1 Ha2) as Ia.
  pose proof (NilZero.isi _ Hb1 Hb2) as Ib.
  rewrite H in Ia. rewrite Ia in Ib. now injection Ib.
Qed.

(** Texts without a colon are told apart by the colon that follows them. *)
Lemma split_at_colon (a a' b b' : str) :
  forallb key_char a = true -> forallb key_char a' = true ->
  a ++ lit ":" ++ b = a' ++ lit ":" ++ b' -> a = a' /\ b = b'.
Proof.
  revert a'; induction a as [|x a IH]; intros [|x' a'] Ha Ha' H; simpl in *.
  - injection H as ->. auto.
  - injection H as <- _. discriminate Ha'.
  - injection H as -> _. discriminate Ha.
  - injection H as -> H.
    apply andb_true_iff in Ha as [_ Ha]. apply andb_true_iff in Ha' as [_ Ha'].
    destruct (IH _ Ha Ha' H) as [-> ->]. auto.
Qed.

(** Other merge requests have other keys. *)
Lemma mr_key_neq (p m p' m' : Z) :
  (p', m') <> (p, m) -> mr_key p' m' <> mr_key p m.
Proof.
  unfold mr_key. intros Hne H.
  apply split_at_colon in H as [Hp Hm]; try apply str_of_Z_chars.
  apply str_of_Z_inj in Hp, Hm. apply Hne. now subst.
Qed.

(** X11. Two merge requests have the same key only when they have the same
    project id and the same merge request id. *)
Theorem mr_key_inj (p m p' m' : Z) :
  mr_key p m = mr_key p' m' -> p = p' /\ m = m'.
Proof.
  unfold mr_key. intros H.
  assert (Hp : forallb key_char (str_of_Z p) = true) by apply str_of_Z_chars.
  assert (Hp' : forallb key_char (str_of_Z p') = true) by apply str_of_Z_chars.
  destruct (split_at_colon _ _ _ _ Hp Hp' H) as [Ep Em].
  split.
  - exact (str_of_Z_inj _ _ Ep).
  - exact (str_of_Z_inj _ _ Em).
Qed.

Lemma mr_key_inj_witness :
  mr_key 42 7 = mr_key (40 + 2) (8 - 1) /\ (42 = 40 + 2 /\ 7 = 8 - 1)%Z.
Proof.
  split; [reflexivity|].
  apply (mr_key_inj 42 7 (40 + 2) (8 - 1)). reflexivity.
Defined.

(** ** Registering and removing *)

Lemma dict_get_app_other (k key : str) (d : active_mrs) (v : mr_info) :
  k <> key -> dict_get k (d ++ [(key, v)]) = dict_get k d.
Proof.
  intros Hne. induction d as [|[k' w] d IH]; simpl.
  - apply str_eqb_neq in Hne. now rewrite Hne.
  - destruct (str_eqb k k'); [reflexivity | exact IH].
Qed.

Lemma dict_del_app_absent (key : str) (d : active_mrs) (v : mr_info) :
  dict_get key d = None -> dict_del key (d ++ [(key, v)]) = d.
Proof.
  induction d as [|[k w] d IH]; simpl.
  - now rewrite str_eqb_refl.
  - destruct (str_eqb key k); [discriminate|]. intros H. now rewrite IH.
Qed.

(** X12. A merge request that is not tracked yet is found under its key after
    [add_merge_request], with the issue key and the time given; the entries
    of all other merge requests are as before, tracked or not. *)
Theorem add_merge_request_lookup (d : active_mrs) (p m : Z) (k : str) (now : Z) :
  (dict_get (mr_key p m) d = None ->
   dict_get (mr_key p m) (add_merge_request d p m k now) = Some (MrInfo p m k now))
  /\ forall p' m', (p', m') <> (p, m) ->
       dict_get (mr_key p' m') (add_merge_request d p m k now)
       = dict_get (mr_key p' m') d.
Proof.
  split.
  - apply add_untracked.
  - intros p' m' Hne. unfold add_merge_request.
    destruct (dict_mem (mr_key p m) d); simpl; [reflexivity|].
    apply dict_get_app_other. now apply mr_key_neq.
Qed.

Lemma add_merge_request_lookup_witness :
  dict_get (mr_key 42 8) one_entry_store = None
  /\ dict_get (mr_key 42 8) (add_merge_request one_entry_store 42 8 (lit "PROJ-8") 100)
     = Some (MrInfo 42 8 (lit "PROJ-8") 100).
Proof.
  split; [reflexivity|].
  apply (add_merge_request_lookup one_entry_store 42 8 (lit "PROJ-8") 100).
  reflexivity.
Defined.

(** X13. After [remove_merge_request] nothing is found under the key of the
    merge request, and the entries of all other merge requests are as
    before. *)
Theorem remove_merge_request_lookup (d : active_mrs) (p m : Z) :
  NoDup (map fst d) ->
  dict_get (mr_key p m) (remove_merge_request d p m) = None
  /\ forall p' m', (p', m') <> (p, m) ->
       dict_get (mr_key p' m') (remove_merge_request d p m)
       = dict_get (mr_key p' m') d.
Proof.
  intros Hnd. split.
  - pose proof (remove_merge_request_gone d p m Hnd) as H.
    unfold dict_mem in H.
    destruct (dict_get (mr_key p m) (remove_merge_request d p m));
      [discriminate | reflexivity].
  - intros p' m' Hne. apply remove_merge_request_other. now apply mr_key_neq.
Qed.

Lemma remove_merge_request_lookup_witness :
  NoDup (map fst two_entry_store)
  /\ dict_get (mr_key 42 7) (remove_merge_request two_entry_store 42 7) = None
  /\ dict_get (mr_key 42 8) (remove_merge_request two_entry_store 42 7)
     = Some (MrInfo 42 8 (lit "PROJ-8") 100).
Proof.
  assert (Hnd : NoDup (map fst two_entry_store)).
  { apply (wf_store_add one_entry_store 42 8 (lit "PROJ-8") 100).
    apply (wf_store_add [] 42 7 (lit "PROJ-7") 0 wf_store_nil). }
  split; [exact Hnd|].
  destruct (remove_merge_request_lookup two_entry_store 42 7 Hnd) as [Hgone _].
  split; [exact Hgone | reflexivity].
Defined.

(** X14. Registering a merge request that was not tracked and removing it
    again gives back the store as it was. *)
Theorem add_then_remove (d : active_mrs) (p m : Z) (k : str) (now : Z) :
  dict_get (mr_key p m) d = None ->
  remove_merge_request (add_merge_request d p m k now) p m = d.
Proof.
  intros H. unfold remove_merge_request.
  assert (Hin : dict_mem (mr_key p m) (add_merge_request d p m k now) = true).
  { unfold dict_mem. now rewrite (add_untracked d p m k now H). }
  rewrite Hin. unfold add_merge_request, dict_mem. rewrite H. simpl.
  now apply dict_del_app_absent.
Qed.

Lemma add_then_remove_witness :
  dict_get (mr_key 42 8) one_entry_store = None
  /\ remove_merge_request (add_merge_request one_entry_store 42 8 (lit "PROJ-8") 100) 42 8
     = one_entry_store.
Proof.
  split; [reflexivity|].
  apply (add_then_remove one_entry_store 42 8 (lit "PROJ-8") 100). reflexivity.
Defined.

(** ** The monitoring pass *)

Lemma touch_same (key : str) (t : Z) (d : active_mrs) (v : mr_info) :
  dict_get key d = Some v ->
  dict_get key (touch key t d)
  = Some (MrInfo (project_id v) (mr_iid v) (issue_key v) t).
Proof.
  induction d as [|[k w] d IH]; simpl; [discriminate|].
  destruct (str_eqb key k) eqn:E; simpl.
  - intros [= ->]. now rewrite E.
  - rewrite E. exact IH.
Qed.


Lemma dict_del_In (key : str) (d : active_mrs) (kv : str * mr_info) :
  In kv (dict_del key d) -> In kv d.
Proof.
  induction d as [|[k w] d IH]; simpl; [tauto|].
  destruct (str_eqb key k); simpl; [tauto|].
  intros [H|H]; [now left | right; now apply IH].
Qed.

Lemma remove_merge_request_In (d : active_mrs) (p m : Z) (kv : str * mr_info) :
  In kv (remove_merge_request d p m) -> In kv d.
Proof.
  unfold remove_merge_request.
  destruct (dict_mem (mr_key p m) d); [apply dict_del_In | tauto].
Qed.



Lemma wf_store_touch (key : str) (t : Z) (d : active_mrs) :
  wf_store d -> wf_store (touch key t d).
Proof.
  intros [Hnd Hk]. split; [now rewrite touch_keys|].
  clear Hnd. induction d as [|[k w] d IH]; simpl; [constructor|].
  inversion Hk as [|? ? Hh Ht]; subst.
  destruct (str_eqb key k); constructor; auto.
Qed.

(** The store after the status step: the one before, or the one with the
    entry of the merge request removed. *)
Lemma status_step_store (env : cycle_env) (d : active_mrs) (p m : Z) :
  snd (update_merge_request_status env d p m) = d
  \/ snd (update_merge_request_status env d p m) = remove_merge_request d p m.
Proof.
  unfold update_merge_request_status.
  destruct (mr_state env) as [st|]; [|now left].
  destruct (existsb (str_eqb st) [lit "merged"; lit "closed"]); simpl; auto.
Qed.

Lemma monitor_entry_store (env : cycle_env) (now interval : Z) (d : active_mrs)
  (key : str) (info : mr_info) :
  fst (monitor_entry env now interval d (key, info))
  = if is_due now interval info
    then touch key now
           (snd (update_merge_request_status env d (project_id info) (mr_iid info)))
    else d.
Proof.
  unfold monitor_entry, is_due.
  destruct (interval <=? now - last_update info)%Z; [|reflexivity].
  destruct (update_merge_request_status env d (project_id info) (mr_iid info)).
  reflexivity.
Qed.

Lemma wf_store_entry (env : cycle_env) (now interval : Z) (d : active_mrs)
  (item : str * mr_info) :
  wf_store d -> wf_store (fst (monitor_entry env now interval d item)).
Proof.
  intros Hwf. destruct item as [key info]. rewrite monitor_entry_store.
  destruct (is_due now interval info); [|exact Hwf].
  apply wf_store_touch.
  destruct (status_step_store env d (project_id info) (mr_iid info)) as [-> | ->];
    [exact Hwf | now apply wf_store_remove].
Qed.

Lemma wf_store_items (envs : str -> cycle_env) (now interval : Z)
  (items : list (str * mr_info)) (d : active_mrs) :
  wf_store d -> wf_store (fst (monitor_items envs now interval items d)).
Proof.
  revert d; induction items as [|item items IH]; intros d Hwf; simpl; [exact Hwf|].
  pose proof (wf_store_entry (envs (fst item)) now interval d item Hwf) as H1.
  destruct (monitor_entry (envs (fst item)) now interval d item) as [d1 ps].
  specialize (IH d1 H1).
  destruct (monitor_items envs now interval items d1) as [d2 qs]. exact IH.
Qed.

(** X15. The tracked set stays well formed, with unique keys that are the keys
    of their entries, under registration, under removal and through any
    number of turns of the monitoring loop. *)
Theorem tracked_set_invariant (d : active_mrs) :
  wf_store d ->
  (forall p m k now, wf_store (add_merge_request d p m k now))
  /\ (forall p m, wf_store (remove_merge_request d p m))
  /\ (forall ticks interval, wf_store (fst (monitor_loop ticks interval d))).
Proof.
  intros Hwf. split; [|split].
  - intros. now apply wf_store_add.
  - intros. now apply wf_store_remove.
  - intros ticks interval. revert d Hwf.
    induction ticks as [|[t envs] ticks IH]; intros d Hwf; simpl; [exact Hwf|].
    pose proof (wf_store_items envs t interval d d Hwf) as H1.
    unfold monitor_pass.
    destruct (monitor_items envs t interval d d) as [d1 ps].
    specialize (IH d1 H1).
    destruct (monitor_loop ticks interval d1) as [d2 qs]. exact IH.
Qed.

Lemma tracked_set_invariant_witness :
  wf_store one_entry_store
  /\ wf_store (fst (monitor_loop [(300%Z, fun _ => open_env); (600%Z, fun _ => merged_env)]
                      300 one_entry_store)).
Proof.
  assert (H : wf_store one_entry_store)
    by (apply (wf_store_add [] 42 7 (lit "PROJ-7") 0 wf_store_nil)).
  split; [exact H|].
  apply (tracked_set_invariant one_entry_store H).
Defined.

(** X16. In the cycle of a due entry whose merge request is neither merged
    nor closed, or cannot be fetched, the entry stays and its time of last
    update becomes the time of the pass; the other entries are as before.
    The status is pushed when the merge request was fetched and the returned
    checklist is not empty; a failed fetch drops the checklist and pushes
    nothing. *)
Theorem active_cycle_keeps_entry (env : cycle_env) (now interval : Z)
  (d : active_mrs) (key : str) (info : mr_info) :
  dict_get key d = Some info ->
  (interval <= now - last_update info)%Z ->
  (forall st, mr_state env = Some st -> st <> lit "merged" /\ st <> lit "closed") ->
  dict_get key (fst (monitor_entry env now interval d (key, info)))
  = Some (MrInfo (project_id info) (mr_iid info) (issue_key info) now)
  /\ (forall k, k <> key ->
                dict_get k (fst (monitor_entry env now interval d (key, info)))
                = dict_get k d)
  /\ snd (monitor_entry env now interval d (key, info))
     = match mr_state env, agent_progress env with
       | Some _, Some p => [(issue_key info, new_status (Some p))]
       | _, _ => []
       end.
Proof.
  intros Hget Hdue Hopen.
  unfold monitor_entry, update_merge_request_status.
  apply Z.leb_le in Hdue. rewrite Hdue.
  destruct (mr_state env) as [st|] eqn:Hst.
  - destruct (Hopen st eq_refl) as [Hm Hc].
    apply str_eqb_neq in Hm, Hc. cbn [existsb]. rewrite Hm, Hc. cbn [orb fst snd].
    repeat split.
    + now apply touch_same.
    + intros k Hk. now apply touch_other.
    + destruct (agent_progress env); reflexivity.
  - cbn [fst snd]. repeat split.
    + now apply touch_same.
    + intros k Hk. now apply touch_other.
Qed.

Lemma active_cycle_keeps_entry_witness :
  let info := MrInfo 42 7 (lit "PROJ-7") 0 in
  dict_get (mr_key 42 7) one_entry_store = Some info
  /\ dict_get (mr_key 42 7)
       (fst (monitor_entry open_env 300 300 one_entry_store (mr_key 42 7, info)))
     = Some (MrInfo 42 7 (lit "PROJ-7") 300)
  /\ snd (monitor_entry open_env 300 300 one_entry_store (mr_key 42 7, info))
     = [(lit "PROJ-7", lit "in_progress")].
Proof.
  intros info. split; [reflexivity|].
  assert (Hdue : (300 <= 300 - last_update info)%Z) by (simpl; lia).
  assert (Hopen : forall st, mr_state open_env = Some st ->
                             st <> lit "merged" /\ st <> lit "closed").
  { intros st [= <-]. split; discriminate. }
  destruct (active_cycle_keeps_entry open_env 300 300 one_entry_store (mr_key 42 7)
              info eq_refl Hdue Hopen) as (Hkept & _ & Hpush).
  split; [exact Hkept | exact Hpush].
Defined.

Lemma monitor_entry_pushes (envs : str -> cycle_env) (now interval : Z)
  (d : active_mrs) (item : str * mr_info) :
  snd (monitor_entry (envs (fst item)) now interval d item)
  = entry_pushes envs now interval item.
Proof.
  destruct item as [key info].
  unfold monitor_entry, entry_pushes, is_due, update_merge_request_status.
  cbn [fst snd].
  destruct (interval <=? now - last_update info)%Z; [|reflexivity].
  destruct (mr_state (envs key)) as [st|]; [|reflexivity].
  cbn [snd]. destruct (agent_progress (envs key)); reflexivity.
Qed.

Lemma monitor_items_pushes (envs : str -> cycle_env) (now interval : Z)
  (items : list (str * mr_info)) (d : active_mrs) :
  snd (monitor_items envs now interval items d)
  = flat_map (entry_pushes envs now interval) items.
Proof.
  revert d; induction items as [|item items IH]; intros d; simpl; [reflexivity|].
  pose proof (monitor_entry_pushes envs now interval d item) as H1.
  destruct (monitor_entry (envs (fst item)) now interval d item) as [d1 ps].
  specialize (IH d1).
  destruct (monitor_items envs now interval items d1) as [d2 qs].
  simpl in *. now subst.
Qed.

(** X17. The statuses pushed in a pass are, in the order of the store, one
    for each entry that is due, whose merge request could be fetched and
    whose cycle returned a checklist: never more than one for an entry, and
    none for an issue that is not tracked. *)
Theorem pass_pushes (envs : str -> cycle_env) (now interval : Z) (d : active_mrs) :
  snd (monitor_pass envs now interval d) = flat_map (entry_pushes envs now interval) d
  /\ length (snd (monitor_pass envs now interval d)) <= length d
  /\ forall issue status,
       In (issue, status) (snd (monitor_pass envs now interval d)) ->
       exists key info p,
         In (key, info) d /\ issue = issue_key info
         /\ is_due now interval info = true
         /\ agent_progress (envs key) = Some p /\ status = new_status (Some p).
Proof.
  unfold monitor_pass. rewrite monitor_items_pushes.
  split; [reflexivity|]. split.
  - induction d as [|item d IH]; simpl; [lia|].
    rewrite length_app.
    assert (length (entry_pushes envs now interval item) <= 1).
    { unfold entry_pushes. destruct (is_due _ _ _); [|simpl; lia].
      destruct (mr_state _); [|simpl; lia].
      destruct (agent_progress _); simpl; lia. }
    lia.
  - intros issue status Hin.
    apply in_flat_map in Hin as ([key info] & Hd & Hp).
    unfold entry_pushes in Hp. cbn [fst snd] in Hp.
    destruct (is_due now interval info) eqn:Hdue; [|contradiction].
    destruct (mr_state (envs key)); [|contradiction].
    destruct (agent_progress (envs key)) as [p|] eqn:Hprog; [|contradiction].
    destruct Hp as [[= <- <-] | []].
    exists key, info, p. auto.
Qed.

(** X18. A pass in which no entry is due changes nothing and pushes
    nothing. *)
Theorem idle_pass (envs : str -> cycle_env) (now interval : Z) (d : active_mrs) :
  (forall key info, In (key, info) d -> is_due now interval info = false) ->
  monitor_pass envs now interval d = (d, []).
Proof.
  unfold monitor_pass.
  assert (H : forall items d0,
             (forall key info, In (key, info) items -> is_due now interval info = false) ->
             monitor_items envs now interval items d0 = (d0, [])).
  { induction items as [|[key info] items IH]; intros d0 Hdue; simpl; [reflexivity|].
    pose proof (Hdue key info (or_introl eq_refl)) as Hk. unfold is_due in Hk.
    rewrite Hk. rewrite IH; [reflexivity|].
    intros k v Hin. apply (Hdue k v). now right. }
  intros Hdue. now apply H.
Qed.

Lemma idle_pass_witness :
  monitor_pass (fun _ => merged_env) 299 300 one_entry_store = (one_entry_store, []).
Proof.
  apply (idle_pass (fun _ => merged_env) 299 300 one_entry_store).
  intros key info [[= <- <-] | []]. reflexivity.
Defined.

Lemma monitor_items_cons (envs : str -> cycle_env) (now interval : Z)
  (item : str * mr_info) (rest : list (str * mr_info)) (d : active_mrs) :
  monitor_items envs now interval (item :: rest) d
  = let (d1, ps) := monitor_entry (envs (fst item)) now interval d item in
    let (d2, qs) := monitor_items envs now interval rest d1 in
    (d2, ps ++ qs).
Proof. reflexivity. Qed.




Lemma roundtrip_identity_unimplemented_witness :
  canonical_document reviewed_document (lit "Intro" ++ [newline]) reviewed_state
    (lit "## Notes")
  /\ implementation reviewed_state = false
  /\ _update_progress_section reviewed_document
       (_parse_progress_section reviewed_document) = reviewed_document.
Proof.
  assert (H : canonical_document reviewed_document (lit "Intro" ++ [newline])
                reviewed_state (lit "## Notes")).
  { split; [reflexivity|]. split; [reflexivity|]. right. reflexivity. }
  split; [exact H|]. split; [reflexivity|].
  apply (roundtrip_identity_unimplemented reviewed_document _ _ _ H). reflexivity.
Defined.

(** ** The configuration *)

Lemma entries_get_filter_out (key : str) (keep : list str)
  (entries : list (str * value)) :
  existsb (str_eqb key) keep = false ->
  entries_get key (filter (fun kv => existsb (str_eqb (fst kv)) keep) entries) = None.
Proof.
  intros Hout. induction entries as [|[k v] entries IH]; simpl; [reflexivity|].
  destruct (existsb (str_eqb k) keep) eqn:E; [|exact IH].
  simpl. destruct (str_eqb key k) eqn:Ek; [|exact IH].
  apply str_eqb_eq in Ek. subst k. congruence.
Qed.

Lemma is_llm_enabled_dicts (config enabled : value) :
  is_llm_enabled config = Some enabled ->
  truthy enabled = true ->
  exists features entries,
    vsub config (lit "features") = Some features
    /\ vsub features (lit "llm_refinement") = Some (VDict entries).
Proof.
  unfold is_llm_enabled, vget, vsub. intros H Ht.
  destruct config as [| | | | |centries]; try discriminate.
  destruct (entries_get (lit "features") centries) as [features|].
  - exists features.
    destruct features as [| | | | |fentries]; try discriminate.
    destruct (entries_get (lit "llm_refinement") fentries) as [llm|].
    + destruct llm as [| | | | |lentries]; try discriminate.
      exists lentries. auto.
    + simpl in H. injection H as <-. discriminate Ht.
  - simpl in H. injection H as <-. discriminate Ht.
Qed.

(** X20. [refine_prompt_with_llm] returns the base prompt when refinement is
    off.  When it is on and an API key is set, it never raises: it returns
    the refined prompt, or the base prompt when refining raised, whatever
    [fallback_to_base] says in the configuration, since that key is filtered
    out before it is read.  When it is on and no API key is set, it
    raises. *)
Theorem refine_prompt_outcomes (config base enabled : value) (api_key : bool)
  (refined : option value) (prompt_type : str) :
  get_base_prompt config prompt_type = Some base ->
  is_llm_enabled config = Some enabled ->
  refine_prompt_with_llm config api_key refined prompt_type
  = if negb (truthy enabled) then Some base
    else if api_key
         then Some (match refined with Some r => r | None => base end)
         else None.
Proof.
  intros Hbase Hen. unfold refine_prompt_with_llm. rewrite Hbase, Hen.
  destruct (truthy enabled) eqn:Ht; [|reflexivity].
  destruct api_key; [|reflexivity]. cbn [negb].
  destruct (is_llm_enabled_dicts _ _ Hen Ht) as (features & entries & Hf & Hl).
  rewrite Hf, Hl.
  destruct refined as [r|]; [reflexivity|].
  now rewrite entries_get_filter_out.
Qed.

Lemma refine_prompt_outcomes_witness :
  get_base_prompt refining_config (lit "tests") = Some (VStr (lit "Write tests."))
  /\ is_llm_enabled refining_config = Some (VBool true)
  /\ refine_prompt_with_llm refining_config true None (lit "tests")
     = Some (VStr (lit "Write tests.")).
Proof.
  split; [reflexivity|]. split; [reflexivity|].
  apply (refine_prompt_outcomes refining_config (VStr (lit "Write tests.")) (VBool true)
           true None (lit "tests")); reflexivity.
Defined.







Lemma missing_sections_none (config : value) :
  (forall s, In s required_sections -> vin s config = Some true) ->
  missing_sections config = Some [].
Proof.
  intros H. unfold missing_sections, required_sections. cbn [fold_right].
  rewrite (H (lit "features")), (H (lit "prompts")), (H (lit "logging"));
    simpl; tauto.
Qed.

Lemma missing_sections_some (config : value) (s : str) :
  In s required_sections -> vin s config <> Some true ->
  missing_sections config <> Some [].
Proof.
  intros Hs Hv. unfold missing_sections, required_sections. cbn [fold_right].
  destruct (vin (lit "features") config) as [[]|] eqn:Ef;
    destruct (vin (lit "prompts") config) as [[]|] eqn:Ep;
    destruct (vin (lit "logging") config) as [[]|] eqn:El;
    try discriminate.
  exfalso. destruct Hs as [<- | [<- | [<- | []]]]; contradiction.
Qed.

(** X22. [load_config] always returns a configuration that holds the three
    required sections: the one loaded when it holds them, the default one
    when the file cannot be read or a section is missing.  With the default
    one, refinement is off, every base prompt is the empty string and
    [update_jira_status] moves no issue. *)
Theorem load_config_sections (loaded : option value) :
  (forall s, In s required_sections -> vin s (load_config loaded) = Some true)
  /\ (forall config,
        loaded = Some config ->
        (forall s, In s required_sections -> vin s config = Some true) ->
        load_config loaded = config)
  /\ (loaded = None
      \/ (exists config s,
            loaded = Some config /\ In s required_sections
            /\ vin s config <> Some true) ->
      load_config loaded = default_config)
  /\ (load_config loaded = default_config ->
      is_llm_enabled (load_config loaded) = Some (VBool false)
      /\ (forall api_key refined prompt_type,
            refine_prompt_with_llm (load_config loaded) api_key refined prompt_type
            = Some (VStr []))
      /\ (forall jira status,
            agent_update_jira_status (load_config loaded) jira status = Some [])).
Proof.
  assert (Hdef : forall s, In s required_sections -> vin s default_config = Some true).
  { intros s [<- | [<- | [<- | []]]]; reflexivity. }
  split; [|split; [|split]].
  - intros s Hs. unfold load_config.
    destruct loaded as [config|]; [|now apply Hdef].
    destruct (missing_sections config) as [[|m l]|] eqn:E; try now apply Hdef.
    unfold missing_sections, required_sections in E. cbn [fold_right] in E.
    destruct (vin (lit "features") config) as [[]|] eqn:Ef;
      destruct (vin (lit "prompts") config) as [[]|] eqn:Ep;
      destruct (vin (lit "logging") config) as [[]|] eqn:El;
      try discriminate E.
    destruct Hs as [<- | [<- | [<- | []]]]; assumption.
  - intros config -> Hall. unfold load_config.
    now rewrite (missing_sections_none config Hall).
  - intros [-> | (config & s & -> & Hs & Hv)]; [reflexivity|].
    unfold load_config.
    pose proof (missing_sections_some config s Hs Hv) as Hm.
    destruct (missing_sections config) as [[|m l]|]; [contradiction | | ]; reflexivity.
  - intros ->. split; [reflexivity|]. split.
    + intros api_key refined prompt_type. reflexivity.
    + intros jira status. reflexivity.
Qed.

(** ** The labels of the configuration *)

Lemma entries_get_set (key : str) (v : value) (entries : list (str * value)) :
  entries_get key (entries_set key v entries) = Some v.
Proof.
  induction entries as [|[k x] entries IH]; simpl.
  - now rewrite str_eqb_refl.
  - destruct (str_eqb key k) eqn:E; simpl; rewrite E; [reflexivity | exact IH].
Qed.

Lemma entries_get_set_other (key k : str) (v : value) (entries : list (str * value)) :
  k <> key -> entries_get k (entries_set key v entries) = entries_get k entries.
Proof.
  intros Hne. apply str_eqb_neq in Hne.
  induction entries as [|[k' x] entries IH]; simpl.
  - now rewrite Hne.
  - destruct (str_eqb key k') eqn:E; simpl.
    + apply str_eqb_eq in E. subst k'. now rewrite Hne.
    + destruct (str_eqb k k'); [reflexivity | exact IH].
Qed.

Lemma config_labels_with_labels (config : value) (old : value) (items : list value) :
  config_labels config = Some old ->
  config_labels (with_labels config items) = Some (VList items)
  /\ forall k d, k <> lit "labels" ->
       match gitlab_duo config, gitlab_duo (with_labels config items) with
       | Some duo, Some duo' => vget duo' k d = vget duo k d
       | _, _ => False
       end.
Proof.
  unfold config_labels, gitlab_duo, with_labels, vsub.
  destruct config as [| | | | |centries]; try discriminate.
  destruct (entries_get (lit "features") centries) as [features|] eqn:Ef;
    [|discriminate].
  destruct features as [| | | | |fentries]; try discriminate.
  destruct (entries_get (lit "gitlab_duo") fentries) as [duo|] eqn:Eg; [|discriminate].
  destruct duo as [| | | | |gentries]; try discriminate.
  intros Hl. rewrite !entries_get_set. split.
  - reflexivity.
  - intros k d Hk. unfold vget. now rewrite entries_get_set_other.
Qed.

Lemma after_merge_request_keeps (config : value) (gitlab : mr_answers)
  (story : story_details) (mr : merge_request) (status : str)
  (requests : list create_request) :
  config_after (after_merge_request config gitlab story mr status requests) = config
  /\ creations (after_merge_request config gitlab story mr status requests) = requests.
Proof.
  unfold after_merge_request.
  destruct (tracked gitlab); [|split; reflexivity].
  destruct (agent_update_jira_status config (jira_state gitlab) (lit "in_review"));
    split; reflexivity.
Qed.

Lemma config_labels_duo (config : value) (items : list value) :
  config_labels config = Some (VList items) ->
  exists duo,
    gitlab_duo config = Some duo
    /\ vsub duo (lit "labels") = Some (VList items)
    /\ vget duo (lit "labels") (VList []) = Some (VList items)
    /\ exists branch, vget duo (lit "default_branch") (VStr (lit "main")) = Some branch.
Proof.
  unfold config_labels. intros H.
  destruct (gitlab_duo config) as [duo|]; [|discriminate].
  exists duo. split; [reflexivity|]. split; [exact H|].
  destruct duo as [| | | | |gentries]; try discriminate.
  unfold vsub in H. unfold vget. rewrite H. split; [reflexivity|].
  destruct (entries_get (lit "default_branch") gentries); eauto.
Qed.

Lemma create_labels_step (config : value) (items : list value)
  (gitlab : mr_answers) (story : story_details) (source : str) (target : option str) :
  config_labels config = Some (VList items) ->
  config_labels (config_after (create_duo_merge_request config gitlab story source target))
  = Some (VList (items ++ if reaches_append (gitlab, story, source, target)
                          then [VStr (story_key story)] else []))
  /\ forall r,
       In r (creations (create_duo_merge_request config gitlab story source target)) ->
       reaches_append (gitlab, story, source, target) = true
       /\ cr_labels r = items ++ [VStr (story_key story)].
Proof.
  intros Hl.
  destruct (config_labels_duo _ _ Hl) as (duo & Hduo & Hsub & Hget & branch & Hbranch).
  destruct (config_labels_with_labels config _ (items ++ [VStr (story_key story)]) Hl)
    as [Hnew _].
  unfold create_duo_merge_request, reaches_append.
  rewrite Hduo, Hbranch, Hget, Hsub.
  assert (Hnil : config_labels config = Some (VList (items ++ [])))
    by (now rewrite app_nil_r).
  destruct target as [t|];
    (destruct (project_found gitlab); cbn [negb andb];
     [|split; [exact Hnil | intros r []]];
     destruct (existing_mrs gitlab) as [[|mr mrs]|];
     [ | | split; [exact Hnil | intros r []]]).
  all: try (destruct (after_merge_request_keeps config gitlab story mr (lit "existing") [])
              as [-> ->]; split; [exact Hnil | intros r []]).
  all: destruct (generated gitlab) as [description|];
    [|split; [exact Hnew | intros r []]];
    destruct (created gitlab) as [mr|];
    [ match goal with
      | |- context [after_merge_request ?c ?g ?s ?m ?st ?rq] =>
          destruct (after_merge_request_keeps c g s m st rq) as [-> ->]
      end | ];
    (split; [exact Hnew | intros r [<- | []]; split; reflexivity]).
Qed.

(** X23. When the configuration holds a [labels] list for GitLab Duo, every
    call of [create_duo_merge_request] that finds the project and no open
    merge request appends the story key to that very list, also when the
    creation then fails.  So over the calls of one run the list grows by the
    keys of those calls, and a merge request is created with the labels of
    the configuration, the keys of all such earlier calls and its own key. *)
Theorem labels_accumulate (config : value) (items : list value)
  (calls : list (mr_answers * story_details * str * option str)) :
  config_labels config = Some (VList items) ->
  config_labels (fst (create_all config calls))
  = Some (VList (items ++ map call_key (filter reaches_append calls)))
  /\ forall r, In r (snd (create_all config calls)) ->
       exists earlier call later,
         calls = earlier ++ call :: later
         /\ reaches_append call = true
         /\ cr_labels r
            = items ++ map call_key (filter reaches_append earlier) ++ [call_key call].
Proof.
  revert config items.
  induction calls as [|[[[gitlab story] source] target] calls IH];
    intros config items Hl.
  - simpl. rewrite app_nil_r. split; [exact Hl | intros r []].
  - destruct (create_labels_step config items gitlab story source target Hl)
      as [Hstep Hreq].
    cbn [create_all].
    set (out := create_duo_merge_request config gitlab story source target) in *.
    destruct (IH (config_after out) _ Hstep) as [IH1 IH2].
    destruct (create_all (config_after out) calls) as [config' requests].
    cbn [fst snd] in *. split.
    + rewrite IH1. cbn [filter].
      destruct (reaches_append (gitlab, story, source, target)); cbn [map call_key].
      * now rewrite <- app_assoc.
      * now rewrite app_nil_r.
    + intros r Hin. apply in_app_or in Hin as [Hin | Hin].
      * destruct (Hreq r Hin) as [Hreach Hlab].
        exists [], (gitlab, story, source, target), calls.
        split; [reflexivity|]. split; [exact Hreach|]. exact Hlab.
      * destruct (IH2 r Hin) as (earlier & call & later & -> & Hreach & Hlab).
        exists ((gitlab, story, source, target) :: earlier), call, later.
        split; [reflexivity|]. split; [exact Hreach|].
        rewrite Hlab. cbn [filter].
        destruct (reaches_append (gitlab, story, source, target)); cbn [map call_key].
        -- now rewrite <- !app_assoc.
        -- now rewrite app_nil_r.
Qed.

Lemma labels_accumulate_witness :
  config_labels labelled_config = Some (VList [VStr (lit "duo")])
  /\ config_labels
       (fst (create_all labelled_config
               [(failing_gitlab, sample_story, lit "feature/proj-7", None);
                (working_gitlab, other_story, lit "feature/proj-8", None)]))
     = Some (VList [VStr (lit "duo"); VStr (lit "PROJ-7"); VStr (lit "PROJ-8")]).
Proof.
  split; [reflexivity|].
  apply (labels_accumulate labelled_config [VStr (lit "duo")]
           [(failing_gitlab, sample_story, lit "feature/proj-7", None);
            (working_gitlab, other_story, lit "feature/proj-8", None)]).
  reflexivity.
Defined.

(** ** What the loop leaves alone *)

Lemma touch_subject (key k : str) (t : Z) (d : active_mrs) (v' : mr_info) :
  In (k, v') (touch key t d) -> exists v, In (k, v) d /\ same_subject v' v.
Proof.
  induction d as [|[k0 w] d IH]; simpl; [contradiction|].
  destruct (str_eqb key k0).
  - intros [[= <- <-] | Hin].
    + exists w. split; [now left | repeat split].
    + exists v'. split; [now right | repeat split].
  - intros [[= <- <-] | Hin].
    + exists w. split; [now left | repeat split].
    + destruct (IH Hin) as (v & Hv & Hs). exists v. split; [now right | exact Hs].
Qed.

Lemma monitor_entry_subject (env : cycle_env) (now interval : Z) (d : active_mrs)
  (item : str * mr_info) (k : str) (v' : mr_info) :
  In (k, v') (fst (monitor_entry env now interval d item)) ->
  exists v, In (k, v) d /\ same_subject v' v.
Proof.
  destruct item as [key info]. rewrite monitor_entry_store.
  destruct (is_due now interval info).
  - intros Hin. apply touch_subject in Hin as (v & Hv & Hs).
    exists v. split; [|exact Hs].
    destruct (status_step_store env d (project_id info) (mr_iid info)) as [E | E];
      rewrite E in Hv; [exact Hv | now apply remove_merge_request_In in Hv].
  - intros Hin. exists v'. split; [exact Hin | repeat split].
Qed.

Lemma monitor_items_subject (envs : str -> cycle_env) (now interval : Z)
  (items : list (str * mr_info)) (d : active_mrs) (k : str) (v' : mr_info) :
  In (k, v') (fst (monitor_items envs now interval items d)) ->
  exists v, In (k, v) d /\ same_subject v' v.
Proof.
  revert d v'; induction items as [|item items IH]; intros d v' Hin.
  - exists v'. split; [exact Hin | repeat split].
  - rewrite monitor_items_cons in Hin.
    pose proof (fun w => monitor_entry_subject (envs (fst item)) now interval d item k w)
      as Hstep.
    destruct (monitor_entry (envs (fst item)) now interval d item) as [d1 ps].
    cbn [fst] in Hstep.
    destruct (monitor_items envs now interval items d1) as [d2 qs] eqn:E.
    cbn [fst] in Hin.
    destruct (IH d1 v') as (v1 & Hv1 & Hs1); [now rewrite E|].
    destruct (Hstep v1 Hv1) as (v & Hv & Hs).
    exists v. split; [exact Hv|].
    destruct Hs1 as (A1 & A2 & A3), Hs as (B1 & B2 & B3).
    repeat split; congruence.
Qed.

(** X24. The monitoring loop never adds an entry and never changes the
    project id, the merge request id or the issue key of one: every entry
    in the store after any number of turns was there before, under the same
    key, with at most another time of last update. *)
Theorem loop_only_removes (ticks : list (Z * (str -> cycle_env))) (interval : Z)
  (d : active_mrs) (key : str) (info' : mr_info) :
  In (key, info') (fst (monitor_loop ticks interval d)) ->
  exists info, In (key, info) d /\ same_subject info' info.
Proof.
  revert d info'; induction ticks as [|[t envs] ticks IH]; intros d info' Hin.
  - exists info'. split; [exact Hin | repeat split].
  - cbn [monitor_loop] in Hin. unfold monitor_pass in Hin.
    pose proof (fun w => monitor_items_subject envs t interval d d key w) as Hstep.
    destruct (monitor_items envs t interval d d) as [d1 ps].
    cbn [fst] in Hstep.
    destruct (monitor_loop ticks interval d1) as [d2 qs] eqn:E.
    cbn [fst] in Hin.
    destruct (IH d1 info') as (v1 & Hv1 & Hs1); [now rewrite E|].
    destruct (Hstep v1 Hv1) as (v & Hv & Hs).
    exists v. split; [exact Hv|].
    destruct Hs1 as (A1 & A2 & A3), Hs as (B1 & B2 & B3).
    repeat split; congruence.
Qed.

Lemma loop_only_removes_witness :
  exists info,
    In (mr_key 42 7, info) one_entry_store
    /\ same_subject (MrInfo 42 7 (lit "PROJ-7") 300) info.
Proof.
  apply (loop_only_removes [(300%Z, fun _ => open_env)] 300 one_entry_store
           (mr_key 42 7) (MrInfo 42 7 (lit "PROJ-7") 300)).
  left. reflexivity.
Defined.

(** ** From the description to the status pushed *)

Lemma new_status_chain (p : progress) :
  new_status (Some p)
  = if acceptance p then lit "done"
    else if review p then lit "in_review"
    else if implementation p || tests p || documentation p then lit "in_progress"
    else lit "to_do".
Proof.
  unfold new_status. cbn.
  destruct (acceptance p); [reflexivity|].
  destruct (review p); [reflexivity|].
  rewrite orb_false_r, orb_assoc. reflexivity.
Qed.

(** X25. End to end, for a due entry whose merge request is fetched and whose
    cycle saves nothing or saves with success: exactly one status is pushed,
    for the issue of the entry.  It is "done" when the acceptance box is
    checked in the description, whatever the signals; otherwise it follows
    the signals collected in this cycle, not the other boxes of the
    description. *)
Theorem pushed_status (description : str) (s : snapshot) (ok : bool) (st : str)
  (now interval : Z) (d : active_mrs) (key : str) (info : mr_info) :
  (interval <= now - last_update info)%Z ->
  ok = true \/ collect description s = _parse_progress_section description ->
  snd (monitor_entry
         (CycleEnv (update_merge_request_progress true description s ok) (Some st))
         now interval d (key, info))
  = [(issue_key info,
      if acceptance (_parse_progress_section description) then lit "done"
      else if check_review_progress s then lit "in_review"
      else if check_implementation_progress s || check_test_progress s
              || check_documentation_progress s then lit "in_progress"
      else lit "to_do")].
Proof.
  intros Hdue Hok.
  assert (Hret : update_merge_request_progress true description s ok
                 = Some (collect description s)).
  { unfold update_merge_request_progress.
    destruct (collect_dec description s) as [H|H].
    - now rewrite (update_progress_unchanged _ _ _ H).
    - rewrite (update_progress_changed _ _ _ H).
      destruct Hok as [-> | Hc]; [reflexivity | contradiction]. }
  unfold monitor_entry, update_merge_request_status. cbn [mr_state agent_progress].
  apply Z.leb_le in Hdue. rewrite Hdue, Hret. cbn [snd].
  unfold update_jira_status. rewrite new_status_chain. reflexivity.
Qed.

Lemma pushed_status_witness :
  snd (monitor_entry
         (CycleEnv (update_merge_request_progress true accepted_document ready_snapshot true)
            (Some (lit "opened")))
         300 300 one_entry_store (mr_key 42 7, MrInfo 42 7 (lit "PROJ-7") 0))
  = [(lit "PROJ-7", lit "done")].
Proof.
  apply (pushed_status accepted_document ready_snapshot true (lit "opened") 300 300
           one_entry_store (mr_key 42 7) (MrInfo 42 7 (lit "PROJ-7") 0)).
  - simpl. lia.
  - left. reflexivity.
Defined.

(** ** The batch file *)

Lemma lstrip_space_head (s : str) :
  match lstrip_space s with
  | [] => True
  | c :: _ => is_space c = false
  end.
Proof.
  induction s as [|c s IH]; simpl; [exact I|].
  destruct (is_space c) eqn:E; [exact IH | exact E].
Qed.

Lemma lstrip_space_suffix (s : str) : exists pre, s = pre ++ lstrip_space s.
Proof.
  induction s as [|c s [pre IH]]; simpl.
  - now exists [].
  - destruct (is_space c).
    + exists (c :: pre). simpl. now f_equal.
    + now exists [].
Qed.

Lemma lstrip_space_fixed (s : str) :
  match s with
  | [] => True
  | c :: _ => is_space c = false
  end ->
  lstrip_space s = s.
Proof. destruct s as [|c s]; simpl; [reflexivity|]. now intros ->. Qed.

(** What [strip] returns starts and ends with a character that is no
    white space, when it is not empty. *)
Lemma strip_space_ends (s : str) :
  match strip_space s with
  | [] => True
  | c :: _ => is_space c = false
  end
  /\ match rev (strip_space s) with
     | [] => True
     | c :: _ => is_space c = false
     end.
Proof.
  unfold strip_space. rewrite rev_involutive. split.
  - pose proof (lstrip_space_head s) as Hhead.
    destruct (lstrip_space_suffix (rev (lstrip_space s))) as [pre Hpre].
    apply (f_equal (@rev ascii)) in Hpre.
    rewrite rev_involutive, rev_app_distr in Hpre.
    destruct (rev (lstrip_space (rev (lstrip_space s)))) as [|c r] eqn:E; [exact I|].
    rewrite Hpre in Hhead. exact Hhead.
  - apply lstrip_space_head.
Qed.

Lemma batch_issue_keys_app (lines more : list str) :
  batch_issue_keys (lines ++ more) = batch_issue_keys lines ++ batch_issue_keys more.
Proof. unfold batch_issue_keys. now rewrite filter_app, map_app. Qed.

Lemma batch_issue_keys_one (line : str) :
  batch_issue_keys [line]
  = if str_eqb (strip_space line) [] then [] else [strip_space line].
Proof.
  unfold batch_issue_keys. simpl.
  destruct (str_eqb (strip_space line) []); reflexivity.
Qed.

(** X26. The issue keys read from a batch file are the stripped lines, in the
    order of the file, blank lines left out: a line that is not blank gives
    its stripped text at its place among the keys, a blank line gives
    nothing; no key is empty, none starts or ends with white space, and
    stripping a key again changes nothing. *)
Theorem batch_issue_keys_clean (lines : list str) :
  (forall before line after,
     lines = before ++ line :: after ->
     batch_issue_keys lines
     = batch_issue_keys before
       ++ (if str_eqb (strip_space line) [] then [] else [strip_space line])
       ++ batch_issue_keys after)
  /\ (lines = [] -> batch_issue_keys lines = [])
  /\ (forall key,
        In key (batch_issue_keys lines) ->
        (exists line, In line lines /\ key = strip_space line)
        /\ key <> []
        /\ (forall c rest, key = c :: rest -> is_space c = false)
        /\ (forall c rest, key = rest ++ [c] -> is_space c = false)
        /\ strip_space key = key).
Proof.
  split; [|split].
  - intros before line after ->.
    change (line :: after) with ([line] ++ after).
    now rewrite !batch_issue_keys_app, batch_issue_keys_one.
  - intros ->. reflexivity.
  - unfold batch_issue_keys. intros key Hin.
    apply in_map_iff in Hin as (line & <- & Hline).
    apply filter_In in Hline as [Hline Hne].
    apply negb_true_iff, str_eqb_neq in Hne.
    destruct (strip_space_ends line) as [Hhead Hlast].
    assert (Hc : forall c rest, strip_space line = c :: rest -> is_space c = false).
    { intros c rest E. now rewrite E in Hhead. }
    assert (Hr : forall c rest, strip_space line = rest ++ [c] -> is_space c = false).
    { intros c rest E. rewrite E, rev_app_distr in Hlast. exact Hlast. }
    split; [now exists line|]. split; [exact Hne|]. split; [exact Hc|].
    split; [exact Hr|].
    unfold strip_space at 1.
    rewrite (lstrip_space_fixed (strip_space line)) by exact Hhead.
    rewrite (lstrip_space_fixed (rev (strip_space line))) by exact Hlast.
    apply rev_involutive.
Qed.

Lemma batch_issue_keys_clean_witness :
  batch_issue_keys [lit "  PROJ-7 " ++ [newline]; [newline]; lit "PROJ-8"]
  = [lit "PROJ-7"; lit "PROJ-8"]
  /\ strip_space (lit "PROJ-7") = lit "PROJ-7".
Proof.
  destruct (batch_issue_keys_clean
              [lit "  PROJ-7 " ++ [newline]; [newline]; lit "PROJ-8"])
    as (Hplace & _ & Hclean).
  split.
  - rewrite (Hplace [lit "  PROJ-7 " ++ [newline]] [newline] [lit "PROJ-8"] eq_refl).
    reflexivity.
  - apply (Hclean (lit "PROJ-7")). left. reflexivity.
Defined.
